(** * A shallow embedding of [shell.c]

    The shell reads a line, splits it on spaces, and either runs a builtin
    ([cd], [exit]) or forks one or two children.  The embedding follows the C
    source function by function and keeps its names.

    - Memory.  A buffer obtained from [malloc] is a [block]: the list of its
      cells, so its size is known.  A load or a store outside of the cells is
      undefined behaviour in C; the model stops there with a [Fault].  The one
      exception is the word stored just below a block of pointers, which two
      loops of the source read as [command_line_args[j - 1]] with [j = 0]: it
      is carried in the block ([under]) and the statements say what they need
      of it.  Tokens are pointers into the line buffer; a pointer to a token is
      identified with the token's text.
    - Machine.  [char] is a signed 8-bit type and a pointer takes 8 bytes, as
      on the Linux x86-64 the program's system calls are written for.
    - Operating system.  Standard input and output, the working directory,
      HOME, the allocator and [fork] are fields of a record [world] that is
      threaded through every call; the answers of the allocator and of [fork]
      are given by the world, so that their failures can be stated.
    - Loops.  The loops of the source are fixpoints on a bound ([fuel]) that
      the functions set from the size of the data; running out of it is a
      [Fault] of its own, and the theorems show results, not faults. *)

From Stdlib Require Import ZArith String Ascii Lia.
From stdpp Require Import base list.
Import ListNotations.

Local Open Scope string_scope.
Local Open Scope list_scope.
Local Open Scope Z_scope.

(** ** Machine data *)

(** A pointer-sized word as the shell uses them: the null pointer, a pointer to
    a token of the command line (identified with the token's text), or any
    other non-null word ([Junk]), such as allocator bookkeeping. *)
Inductive word : Type :=
| NULL
| Ptr (s : string)
| Junk.

Definition is_null (p : word) : bool :=
  match p with NULL => true | _ => false end.

(** A block returned by [malloc]: its cells ([None] is a cell that was never
    written), and the word stored in memory just below the block.  Two loops of
    the source test [command_line_args[j - 1]] starting at [j = 0]; the word
    they load then is [under]. *)
Record block (A : Type) : Type := Block {
  under : word;
  cells : list (option A)
}.
Arguments Block {A} under cells.
Arguments under {A} b.
Arguments cells {A} b.

(** [sizeof(char)] and [sizeof(char * )] in bytes (LP64). *)
Definition sizeof_char : Z := 1.
Definition sizeof_ptr : Z := 8.

Definition EOF : Z := -1.

(** The line feed character, for the messages the shell prints. *)
Definition nl : string := String (ascii_of_nat 10) EmptyString.

(** ** The operating system *)

Inductive desc : Type := STDIN | STDOUT | PIPE_R | PIPE_W | OUT.

(** The process-related system calls the shell makes, in order. *)
Inductive syscall : Type :=
| Fork (result : Z)
| Waitpid (pid : Z)
| Pipe
| Open (path : word)
| Close (d : desc)
| Dup (d : desc)
| Dup2 (d target : desc).

Record world : Type := World {
  stdin : list Byte.byte;            (* bytes not yet read *)
  stdout : list string;              (* what printf has written, oldest first *)
  cwd : string;                      (* working directory *)
  home : option string;              (* getenv("HOME") *)
  lookup_dir : string -> string -> option string;
                                     (* directory reached from a working
                                        directory by a path, when chdir can
                                        enter it *)
  executable : string -> bool;       (* can execvp run this name *)
  heap : nat -> option word;         (* n-th call of the allocator: failure, or
                                        the word below the block it returns *)
  allocs : nat;                      (* allocator calls made so far *)
  pids : list Z;                     (* results of the coming fork() calls *)
  calls : list syscall               (* system calls made so far, oldest first *)
}.

Definition set_stdin (l : list Byte.byte) (w : world) : world :=
  World l (stdout w) (cwd w) (home w) (lookup_dir w) (executable w)
        (heap w) (allocs w) (pids w) (calls w).
Definition set_stdout (o : list string) (w : world) : world :=
  World (stdin w) o (cwd w) (home w) (lookup_dir w) (executable w)
        (heap w) (allocs w) (pids w) (calls w).
Definition set_cwd (d : string) (w : world) : world :=
  World (stdin w) (stdout w) d (home w) (lookup_dir w) (executable w)
        (heap w) (allocs w) (pids w) (calls w).
Definition set_allocs (n : nat) (w : world) : world :=
  World (stdin w) (stdout w) (cwd w) (home w) (lookup_dir w) (executable w)
        (heap w) n (pids w) (calls w).
Definition set_pids (l : list Z) (w : world) : world :=
  World (stdin w) (stdout w) (cwd w) (home w) (lookup_dir w) (executable w)
        (heap w) (allocs w) l (calls w).
Definition set_calls (l : list syscall) (w : world) : world :=
  World (stdin w) (stdout w) (cwd w) (home w) (lookup_dir w) (executable w)
        (heap w) (allocs w) (pids w) l.

(** ** Outcomes of a call *)

Inductive fault : Type :=
| OutOfBounds (i : Z) (n : nat)   (* index i of a block of n cells *)
| Uninitialised (i : Z)           (* load of a cell never written *)
| BadPointer                      (* dereference of NULL or of a non-pointer *)
| OutOfFuel.                      (* the model's loop bound was too small *)

Inductive outcome (A : Type) : Type :=
| Ret (a : A) (w : world)                              (* the call returns *)
| Exit (status : Z) (w : world)                        (* exit(status) *)
| Exec (file : string) (argv : list string) (w : world) (* execvp succeeded *)
| Fault (f : fault).                                   (* undefined behaviour *)
Arguments Ret {A} a w.
Arguments Exit {A} status w.
Arguments Exec {A} file argv w.
Arguments Fault {A} f.

Definition M (A : Type) : Type := world -> outcome A.

Definition ret {A} (a : A) : M A := fun w => Ret a w.

Definition bind {A B} (m : M A) (k : A -> M B) : M B :=
  fun w =>
    match m w with
    | Ret a w' => k a w'
    | Exit s w' => Exit s w'
    | Exec f v w' => Exec f v w'
    | Fault f => Fault f
    end.

Definition fail {A} (f : fault) : M A := fun _ => Fault f.

Notation "x <- m ;; k" := (bind m (fun x => k))
  (at level 100, m at level 99, right associativity).
Notation "m ;;; k" := (bind m (fun _ => k))
  (at level 100, right associativity).

(** ** Library calls *)

Definition printf (s : string) : M unit :=
  fun w => Ret tt (set_stdout (stdout w ++ [s]) w).

Definition exit {A} (status : Z) : M A := fun w => Exit status w.

Definition syscall_ (c : syscall) : M unit :=
  fun w => Ret tt (set_calls (calls w ++ [c]) w).

(** [strcmp]: both arguments must point to strings. *)
Definition strcmp (p q : word) : M Z :=
  match p, q with
  | Ptr a, Ptr b =>
      ret (match String.compare a b with Eq => 0 | Lt => -1 | Gt => 1 end)
  | _, _ => fail BadPointer
  end.

(** ** Loads and stores *)

Definition load {A} (b : block A) (i : Z) : M A :=
  if i <? 0 then fail (OutOfBounds i (length (cells b)))
  else match cells b !! Z.to_nat i with
       | Some (Some a) => ret a
       | Some None => fail (Uninitialised i)
       | None => fail (OutOfBounds i (length (cells b)))
       end.

(** A load from a block of pointers; index [-1] reads the word below it. *)
Definition load_ptr (b : block word) (i : Z) : M word :=
  if i =? -1 then ret (under b) else load b i.

Definition store {A} (b : block A) (i : Z) (a : A) : M (block A) :=
  if (0 <=? i) && (i <? Z.of_nat (length (cells b)))
  then ret (Block (under b) (<[Z.to_nat i := Some a]> (cells b)))
  else fail (OutOfBounds i (length (cells b))).

(** The allocator.  A request takes the next answer of [heap]. *)
Definition malloc {A} (elt_size bytes : Z) : M (option (block A)) :=
  fun w =>
    let w' := set_allocs (S (allocs w)) w in
    match heap w (allocs w) with
    | None => Ret None w'
    | Some u => Ret (Some (Block u (replicate (Z.to_nat (bytes / elt_size)) None))) w'
    end.

(** [realloc] keeps the cells that fit in the new size. *)
Definition realloc {A} (elt_size : Z) (b : block A) (bytes : Z)
  : M (option (block A)) :=
  fun w =>
    let w' := set_allocs (S (allocs w)) w in
    let n := Z.to_nat (bytes / elt_size) in
    match heap w (allocs w) with
    | None => Ret None w'
    | Some u => Ret (Some (Block u (take n (cells b ++ replicate n None)))) w'
    end.

(** Use of a pointer that was not checked against NULL. *)
Definition deref {A} (p : option (block A)) : M (block A) :=
  match p with
  | Some b => ret b
  | None => fail BadPointer
  end.

(** ** Argument vectors *)

(** The cells of a NULL-terminated vector holding the tokens [v]. *)
Definition vector (v : list string) : list (option word) :=
  ((fun s => Some (Ptr s)) <$> v) ++ [Some NULL].

(** What a reader of a NULL-terminated vector sees: the words before the
    first NULL, if there is one before the end of the block and every cell up
    to it was written. *)
Fixpoint argv (l : list (option word)) : option (list word) :=
  match l with
  | [] => None
  | None :: _ => None
  | Some NULL :: _ => Some []
  | Some p :: l' => cons p <$> argv l'
  end.

(** [count_command_line_args], lines 514-518; the same loop opens
    [block_check]. *)
Fixpoint count_loop (fuel : nat) (args : block word) (i : Z) : M Z :=
  match fuel with
  | O => fail OutOfFuel
  | S fuel' =>
      p <- load_ptr args i ;;
      if is_null p then ret i else count_loop fuel' args (i + 1)
  end.

Definition count_command_line_args (args : block word) : M Z :=
  count_loop (S (length (cells args))) args 0.

(** [block_check], lines 275-285: returns 0 if the last argument is "&",
    after overwriting it with NULL, else 1. *)
Definition block_check (args : block word) : M (Z * block word) :=
  i <- count_loop (S (length (cells args))) args 0 ;;
  p <- load_ptr args (i - 1) ;;
  c <- strcmp p (Ptr "&") ;;
  if c =? 0 then
    args' <- store args (i - 1) NULL ;;
    ret (0, args')
  else ret (1, args).

(** [output_redirection], lines 291-323.  The inner loop, lines 314-316:
    [for (j = i; args[j - 1] != NULL; j++) args[j] = args[j + 2];] *)
Fixpoint shift_loop (fuel : nat) (args : block word) (j : Z) : M (block word) :=
  match fuel with
  | O => fail OutOfFuel
  | S fuel' =>
      p <- load_ptr args (j - 1) ;;
      if is_null p then ret args
      else
        q <- load_ptr args (j + 2) ;;
        args' <- store args j q ;;
        shift_loop fuel' args' (j + 1)
  end.

(** [strcmp(a, ">") == 0 || strcmp(a, ">>") == 0], with C's short circuit. *)
Definition is_redirection (p : word) : M bool :=
  c <- strcmp p (Ptr ">") ;;
  if c =? 0 then ret true
  else
    c' <- strcmp p (Ptr ">>") ;;
    ret (c' =? 0).

(** The outer loop, lines 295-320; returns the output file (NULL if none) and
    the vector as it leaves it. *)
Fixpoint redirection_loop (fuel : nat) (args : block word) (i : Z)
  : M (word * block word) :=
  match fuel with
  | O => fail OutOfFuel
  | S fuel' =>
      p <- load_ptr args i ;;
      if is_null p then ret (NULL, args)
      else
        r <- is_redirection p ;;
        if r : bool then
          q <- load_ptr args (i + 1) ;;
          output_file <-
            (if is_null q
             then printf ("must specify output file" ++ nl)%string ;;; exit 1
             else ret q) ;;
          args' <- shift_loop (S (length (cells args))) args i ;;
          ret (output_file, args')
        else redirection_loop fuel' args (i + 1)
  end.

Definition output_redirection (args : block word) : M (word * block word) :=
  redirection_loop (S (length (cells args))) args 0.

(** [pipe_check], lines 328-337: index of the first "|", else -1. *)
Fixpoint pipe_loop (fuel : nat) (args : block word) (i : Z) : M Z :=
  match fuel with
  | O => fail OutOfFuel
  | S fuel' =>
      p <- load_ptr args i ;;
      if is_null p then ret (-1)
      else
        c <- strcmp p (Ptr "|") ;;
        if c =? 0 then ret i else pipe_loop fuel' args (i + 1)
  end.

Definition pipe_check (args : block word) : M Z :=
  pipe_loop (S (length (cells args))) args 0.

(** The three checks as [execute_command_line] runs them, lines 203-210. *)
Record decision : Type := Decision {
  d_block : Z;             (* 1: wait for the child; 0: "&" was read *)
  d_output_file : word;    (* NULL: no redirection *)
  d_pipe_index : Z;        (* -1: no pipe *)
  d_args : block word      (* the vector once the checks have run *)
}.

Definition classify (args : block word) : M decision :=
  r <- block_check args ;;
  let '(block, args1) := r in
  r' <- output_redirection args1 ;;
  let '(output_file, args2) := r' in
  pipe_index <- pipe_check args2 ;;
  ret (Decision block output_file pipe_index args2).

(** ** Builtins *)

Definition getenv (name : string) : M word :=
  fun w =>
    if String.eqb name "HOME"
    then Ret (match home w with Some h => Ptr h | None => NULL end) w
    else Ret NULL w.

(** [chdir] returns 0 and moves, or returns -1 and leaves the working
    directory as it is. *)
Definition chdir (path : word) : M Z :=
  fun w =>
    match path with
    | Ptr p =>
        match lookup_dir w (cwd w) p with
        | Some d => Ret 0 (set_cwd d w)
        | None => Ret (-1) w
        end
    | _ => Ret (-1) w
    end.

(** [printf(pre "%s" post, p)] *)
Definition printf_s (pre : string) (p : word) (post : string) : M unit :=
  match p with
  | Ptr s => printf (pre ++ s ++ post)%string
  | _ => fail BadPointer
  end.

(** [execute_cd], lines 249-270. *)
Definition execute_cd (args : block word) : M unit :=
  a1 <- load_ptr args 1 ;;
  to_home <-
    (if is_null a1 then ret true
     else c <- strcmp a1 (Ptr "~") ;; ret (c =? 0)) ;;
  if to_home : bool then
    h <- getenv "HOME" ;;
    chdir h ;;;
    ret tt
  else
    r <- chdir a1 ;;
    if negb (r =? 0)
    then printf_s "cd: " a1 (": No such file or directory" ++ nl)
    else ret tt.

(** [execute_builtin], lines 232-244. *)
Definition execute_builtin (args : block word) : M Z :=
  a0 <- load_ptr args 0 ;;
  c <- strcmp a0 (Ptr "exit") ;;
  if c =? 0 then ret 1
  else
    execute_cd args ;;;
    ret 0.

(** ** Launchers *)

Definition fork : M Z :=
  fun w =>
    match pids w with
    | [] => Ret (-1) (set_calls (calls w ++ [Fork (-1)]) w)
    | p :: rest => Ret p (set_calls (calls w ++ [Fork p]) (set_pids rest w))
    end.

Definition pointee (p : word) : option string :=
  match p with Ptr s => Some s | _ => None end.

(** The strings a NULL-terminated vector points to, when it is one. *)
Definition argv_strings (args : option (block word)) : option (list string) :=
  match args with
  | Some b =>
      match argv (cells b) with
      | Some v => mapM pointee v
      | None => None
      end
  | None => None
  end.

(** [execvp] returns, with (-1), only when it fails.  It reads the file name
    and walks the vector up to its terminator: a file name that is NULL or
    no string, and a vector that is NULL or has no terminator within its
    block, make it read memory the process does not own. *)
Definition execvp (file : word) (args : option (block word)) : M Z :=
  fun w =>
    match file, argv_strings args with
    | Ptr f, Some v => if executable w f then Exec f v w else Ret (-1) w
    | _, _ => Fault BadPointer
    end.

(** Lines 362-367 and 478-483: send standard output to the file. *)
Definition redirect_output (output_file : word) : M unit :=
  if negb (is_null output_file) then
    syscall_ (Open output_file) ;;;
    syscall_ (Close STDOUT) ;;;
    syscall_ (Dup OUT) ;;;
    syscall_ (Close OUT)
  else ret tt.

(** [execute_external], lines 344-385. *)
Definition execute_external (args : block word) (block : Z) (output_file : word)
  : M unit :=
  pid <- fork ;;
  (if pid <? 0 then printf ("unable to fork" ++ nl)%string ;;; exit 1
   else ret tt) ;;;
  (if pid =? 0 then
     redirect_output output_file ;;;
     a0 <- load_ptr args 0 ;;
     execvp a0 (Some args) ;;;
     printf ("unable to execute command" ++ nl)%string ;;;
     exit 1
   else ret tt) ;;;
  (if block =? 1 then syscall_ (Waitpid pid) else ret tt) ;;;
  ret tt.

(** Accesses through a pointer that [malloc] may have returned as NULL. *)
Definition load_at (p : option (block word)) (i : Z) : M word :=
  b <- deref p ;; load_ptr b i.

Definition store_at (p : option (block word)) (i : Z) (a : word)
  : M (option (block word)) :=
  b <- deref p ;;
  b' <- store b i a ;;
  ret (Some b').

(** [execute_external_pipe], first part (lines 397-425): the split.
    Lines 413-415. *)
Fixpoint left_loop (fuel : nat) (args : block word)
    (pipe_left : option (block word)) (i : Z)
  : M (option (block word) * Z) :=
  match fuel with
  | O => fail OutOfFuel
  | S fuel' =>
      p <- load_ptr args (i - 1) ;;
      if is_null p then ret (pipe_left, i)
      else
        q <- load_ptr args i ;;
        pipe_left' <- store_at pipe_left i q ;;
        left_loop fuel' args pipe_left' (i + 1)
  end.

(** Lines 420-422. *)
Fixpoint right_loop (fuel : nat) (args : block word)
    (pipe_right : option (block word)) (j i : Z)
  : M (option (block word) * Z) :=
  match fuel with
  | O => fail OutOfFuel
  | S fuel' =>
      p <- load_ptr args i ;;
      if is_null p then ret (pipe_right, j)
      else
        pipe_right' <- store_at pipe_right j p ;;
        right_loop fuel' args pipe_right' (j + 1) (i + 1)
  end.

(** A request of a negative number of bytes is huge as a [size_t] and is
    refused. *)
Definition malloc_words (n : Z) : M (option (block word)) :=
  if n <? 0 then
    fun w => Ret None (set_allocs (S (allocs w)) w)
  else malloc sizeof_ptr (n * sizeof_ptr).

(** Lines 397-422: count, cut the vector at the pipe, allocate and copy. *)
Definition pipe_copy (args : block word) (pipe_index : Z)
  : M (option (block word) * option (block word) * Z) :=
  num_command_line_args <- count_command_line_args args ;;
  let num_right := num_command_line_args - (pipe_index + 1) in
  args <- store args pipe_index NULL ;;
  pipe_left <- malloc_words (pipe_index + 1) ;;
  pipe_right <- malloc_words num_right ;;
  l <- left_loop (S (S (length (cells args)))) args pipe_left 0 ;;
  let '(pipe_left, i) := l in
  r <- right_loop (S (length (cells args))) args pipe_right 0 i ;;
  let '(pipe_right, j) := r in
  ret (pipe_left, pipe_right, j).

(** Line 425: [pipe_right[j + 1] = NULL]. *)
Definition pipe_split (args : block word) (pipe_index : Z)
  : M (option (block word) * option (block word)) :=
  c <- pipe_copy args pipe_index ;;
  let '(pipe_left, pipe_right, j) := c in
  pipe_right <- store_at pipe_right (j + 1) NULL ;;
  ret (pipe_left, pipe_right).

(** [execute_external_pipe], second part (lines 427-508): the two children. *)
Definition pipe_launch (pipe_left pipe_right : option (block word))
    (block : Z) (output_file : word) : M unit :=
  syscall_ Pipe ;;;
  pid1 <- fork ;;
  (if pid1 <? 0 then printf ("unable to fork first child" ++ nl)%string ;;; exit 1
   else ret tt) ;;;
  (if pid1 =? 0 then
     syscall_ (Close PIPE_R) ;;;
     syscall_ (Dup2 PIPE_W STDOUT) ;;;
     a0 <- load_at pipe_left 0 ;;
     execvp a0 pipe_left ;;;
     printf ("unable to execute command" ++ nl)%string ;;;
     exit 1
   else ret tt) ;;;
  pid2 <- fork ;;
  (if pid1 <? 0 then printf ("unable to fork second child" ++ nl)%string ;;; exit 1
   else ret tt) ;;;
  (if pid2 =? 0 then
     syscall_ (Close PIPE_W) ;;;
     redirect_output output_file ;;;
     syscall_ (Dup2 PIPE_R STDIN) ;;;
     a0 <- load_at pipe_right 0 ;;
     execvp a0 pipe_right ;;;
     printf ("unable to execute command" ++ nl)%string ;;;
     exit 1
   else ret tt) ;;;
  syscall_ (Close PIPE_R) ;;;
  syscall_ (Close PIPE_W) ;;;
  syscall_ (Waitpid pid1) ;;;
  syscall_ (Waitpid pid2) ;;;
  ret tt.

Definition execute_external_pipe (args : block word) (block : Z)
    (output_file : word) (pipe_index : Z) : M unit :=
  s <- pipe_split args pipe_index ;;
  let '(pipe_left, pipe_right) := s in
  pipe_launch pipe_left pipe_right block output_file.

(** ** Dispatch *)

(** Lines 195-199: is the command one of the builtins. *)
Fixpoint builtin_loop (builtins : list string) (a0 : word) : M bool :=
  match builtins with
  | [] => ret false
  | b :: rest =>
      c <- strcmp a0 (Ptr b) ;;
      if c =? 0 then ret true else builtin_loop rest a0
  end.

(** [execute_command_line], lines 182-225. *)
Definition execute_command_line (args : block word) : M Z :=
  a0 <- load_ptr args 0 ;;
  if is_null a0 then ret 0
  else
    is_builtin <- builtin_loop ["cd"; "exit"] a0 ;;
    if is_builtin : bool then execute_builtin args
    else
      d <- classify args ;;
      (if negb (d_pipe_index d =? -1)
       then execute_external_pipe (d_args d) (d_block d) (d_output_file d)
                                  (d_pipe_index d)
       else execute_external (d_args d) (d_block d) (d_output_file d)) ;;;
      ret 0.

(** ** Tokenizer *)

Definition SH_CL_BUFSIZE : Z := 512.
Definition SH_ARG_BUFSIZE : Z := 32.

Fixpoint in_delim (c : ascii) (delim : string) : bool :=
  match delim with
  | EmptyString => false
  | String d delim' => Ascii.eqb c d || in_delim c delim'
  end.

(** [strtok] first skips the delimiters in front of the token... *)
Fixpoint skip_delims (s delim : string) : string :=
  match s with
  | EmptyString => EmptyString
  | String c s' => if in_delim c delim then skip_delims s' delim else s
  end.

(** ...then cuts the token at the next delimiter and remembers where to
    resume, just after it. *)
Fixpoint cut_token (s delim : string) : string * string :=
  match s with
  | EmptyString => (EmptyString, EmptyString)
  | String c s' =>
      if in_delim c delim then (EmptyString, s')
      else let '(t, rest) := cut_token s' delim in (String c t, rest)
  end.

(** [strtok], its saved position made explicit: the next token of [s] and the
    text left after it, or [None] for the NULL it returns when no token is
    left. *)
Definition strtok (s delim : string) : option (string * string) :=
  match skip_delims s delim with
  | EmptyString => None
  | s' => Some (cut_token s' delim)
  end.

Definition out_of_memory {A} : M A :=
  printf ("unable to allocate memory" ++ nl)%string ;;; exit 1.

(** The loop of [parse_command_line], lines 150-169, then line 172. *)
Fixpoint parse_loop (fuel : nat) (tokens : block word) (bufsize index : Z)
    (token : option (string * string)) : M (block word) :=
  match token with
  | None => store tokens index NULL
  | Some (t, rest) =>
      match fuel with
      | O => fail OutOfFuel
      | S fuel' =>
          tokens <- store tokens index (Ptr t) ;;
          let index := index + 1 in
          if index >=? bufsize then
            let bufsize := bufsize + SH_ARG_BUFSIZE in
            r <- realloc sizeof_ptr tokens bufsize ;;
            match r with
            | None => out_of_memory
            | Some tokens' =>
                parse_loop fuel' tokens' bufsize index (strtok rest " ")
            end
          else parse_loop fuel' tokens bufsize index (strtok rest " ")
      end
  end.

(** [parse_command_line], lines 128-174.  The argument is the string
    [command_line] points to; the tokens are its substrings. *)
Definition parse_command_line (command_line : string) : M (block word) :=
  let bufsize := SH_ARG_BUFSIZE in
  r <- malloc sizeof_ptr (bufsize * sizeof_ptr) ;;
  match r with
  | None => out_of_memory
  | Some tokens =>
      parse_loop (String.length command_line) tokens bufsize 0
                 (strtok command_line " ")
  end.

(** ** Reading a line *)

(** [getchar]: the next byte as an [int] in 0..255, or [EOF]. *)
Definition getchar : M Z :=
  fun w =>
    match stdin w with
    | [] => Ret EOF w
    | c :: rest => Ret (Z.of_N (Byte.to_N c)) (set_stdin rest w)
    end.

(** Conversion of an [int] to [char], which is a signed 8-bit type here. *)
Definition to_char (v : Z) : Z := (v + 128) mod 256 - 128.

(** The loop of [read_command_line], lines 92-120. *)
Fixpoint read_loop (fuel : nat) (buffer : block Z) (bufsize index : Z)
  : M (block Z) :=
  match fuel with
  | O => fail OutOfFuel
  | S fuel' =>
      v <- getchar ;;
      let c := to_char v in
      if (c =? EOF) || (c =? 10) then store buffer index 0
      else
        buffer <- store buffer index c ;;
        let index := index + 1 in
        if index >=? bufsize then
          let bufsize := bufsize + SH_CL_BUFSIZE in
          r <- realloc sizeof_char buffer bufsize ;;
          match r with
          | None => out_of_memory
          | Some buffer' => read_loop fuel' buffer' bufsize index
          end
        else read_loop fuel' buffer bufsize index
  end.

(** [read_command_line], lines 77-121. *)
Definition read_command_line : M (block Z) :=
  fun w =>
    (let bufsize := SH_CL_BUFSIZE in
     r <- malloc sizeof_char (bufsize * sizeof_char) ;;
     match r with
     | None => out_of_memory
     | Some buffer => read_loop (S (length (stdin w))) buffer bufsize 0
     end) w.

(** The C string held in a buffer of characters: the characters before the
    first NUL. *)
Fixpoint c_string (l : list (option Z)) : option (list Z) :=
  match l with
  | [] => None
  | None :: _ => None
  | Some c :: l' => if c =? 0 then Some [] else cons c <$> c_string l'
  end.

Definition ascii_of_char (c : Z) : ascii := ascii_of_N (Z.to_N (c mod 256)).

Definition string_of_chars (l : list Z) : string :=
  string_of_list_ascii (ascii_of_char <$> l).

Definition string_at (buffer : block Z) : M string :=
  match c_string (cells buffer) with
  | Some l => ret (string_of_chars l)
  | None => fail BadPointer
  end.

(** ** The main loop *)

(** [shell_loop], lines 50-71. *)
Fixpoint shell_loop (fuel : nat) (exit_status : Z) : M unit :=
  if exit_status =? 0 then
    match fuel with
    | O => fail OutOfFuel
    | S fuel' =>
        printf "$ " ;;;
        command_line <- read_command_line ;;
        line <- string_at command_line ;;
        command_line_args <- parse_command_line line ;;
        exit_status <- execute_command_line command_line_args ;;
        shell_loop fuel' exit_status
    end
  else ret tt.

Definition banner : list string :=
  [ "$------------------------------------------------$" ++ nl;
    "$              Welcome to my shell!              $" ++ nl;
    "$                                                $" ++ nl;
    "$             Author: Quintin Bucheit            $" ++ nl;
    "$------------------------------------------------$" ++ nl ]%string.

Fixpoint print_all (l : list string) : M unit :=
  match l with
  | [] => ret tt
  | s :: l' => printf s ;;; print_all l'
  end.

(** [main], lines 34-44; its result is the exit status of the process. *)
Definition main (fuel : nat) : M Z :=
  print_all banner ;;;
  shell_loop fuel 0 ;;;
  ret 0.

(** ** Reference functions for the statements *)

(** The reserved control tokens. *)
Definition is_op (s : string) : bool := String.eqb s ">" || String.eqb s ">>".

Definition reserved (s : string) : bool :=
  String.eqb s "&" || is_op s || String.eqb s "|".


Definition is_pipe (s : string) : bool := String.eqb s "|".








(** The cells holding pointers to the tokens [v]. *)
Definition token_cells (v : list string) : list (option word) :=
  (fun s => Some (Ptr s)) <$> v.

(** Splitting on runs of spaces, as the specification words it: cut the line
    at every space, keep the pieces that are not empty. *)
Fixpoint fields (s : string) : list string :=
  match s with
  | EmptyString => [EmptyString]
  | String c s' =>
      if Ascii.eqb c " " then EmptyString :: fields s'
      else match fields s' with
           | f :: fs => String c f :: fs
           | [] => [String c EmptyString]
           end
  end.

Definition nonempty (f : string) : bool := negb (String.eqb f EmptyString).

Definition split_on_spaces (s : string) : list string :=
  List.filter nonempty (fields s).

(** A line of 32 one-letter tokens. *)
Definition line32 : string :=
  "a a a a a a a a a a a a a a a a a a a a a a a a a a a a a a a a".

(** The bytes of the first line of an input and the input left after it: the
    line ends at a line feed or at a byte 0xFF, which is consumed, or with the
    input. *)
Definition ends_line (c : Byte.byte) : bool :=
  Byte.eqb c Byte.x0a || Byte.eqb c Byte.xff.

Fixpoint first_line (input : list Byte.byte) : list Byte.byte * list Byte.byte :=
  match input with
  | [] => ([], [])
  | c :: rest =>
      if ends_line c then ([], rest)
      else let '(l, r) := first_line rest in (c :: l, r)
  end.

Definition char_of_byte (c : Byte.byte) : Z := to_char (Z.of_N (Byte.to_N c)).

(** The word that [args[j - 1]] loads when [done] are the cells below index
    [j]: the last of them, or the word under the block when there is none. *)
Definition word_before (u : word) (done : list (option word)) : option word :=
  match done with
  | [] => Some u
  | _ => default None (last done)
  end.

(** A world in which nothing has happened yet: no input, every allocation
    and two forks succeed, [/home/user] is the only directory [chdir] finds. *)
Definition quiet_world : world :=
  World [] [] "/" (Some "/home/user")
        (fun _ p => if String.eqb p "/home/user" then Some p else None)
        (fun _ => true) (fun _ => Some Junk) 0 [100; 101] [].

(** The same world with the line "exit now" waiting on standard input. *)
Definition exit_world : world :=
  set_stdin [Byte.x65; Byte.x78; Byte.x69; Byte.x74; Byte.x20;
             Byte.x6e; Byte.x6f; Byte.x77; Byte.x0a] quiet_world.

(** An input whose first line holds a byte 0xFF: "ab", 0xFF, "c", line feed. *)
Definition ff_world : world :=
  set_stdin [Byte.x61; Byte.x62; Byte.xff; Byte.x63; Byte.x0a] quiet_world.

(** A world in which the second fork fails. *)
Definition one_process_world : world := set_pids [100; -1] quiet_world.

(** ** More reference functions *)

(** The calls of [redirect_output], lines 362-367 and 478-483. *)
Definition redirect_calls (output_file : word) : list syscall :=
  if is_null output_file then []
  else [Open output_file; Close STDOUT; Dup OUT; Close OUT].

(** The names [execute_command_line] hands to [execute_builtin]. *)
Definition is_builtin_name (s : string) : bool :=
  String.eqb s "cd" || String.eqb s "exit".

(** A token as the tokenizer produces them: not empty, without a space. *)
Fixpoint has_space (s : string) : bool :=
  match s with
  | EmptyString => false
  | String c s' => Ascii.eqb c " " || has_space s'
  end.

Definition is_token (s : string) : bool := nonempty s && negb (has_space s).

(** A line with its spaces taken out. *)
Fixpoint without_spaces (s : string) : string :=
  match s with
  | EmptyString => EmptyString
  | String c s' =>
      if Ascii.eqb c " " then without_spaces s' else String c (without_spaces s')
  end.



(** One turn of [shell_loop], lines 56-67: the prompt, the line, its tokens,
    the command. *)
Definition shell_turn : M Z :=
  printf "$ " ;;;
  command_line <- read_command_line ;;
  line <- string_at command_line ;;
  command_line_args <- parse_command_line line ;;
  execute_command_line command_line_args.

(** The first [n] turns of the loop; it stops before if the status of a
    command is not 0. *)
Fixpoint shell_turns (n : nat) (exit_status : Z) : M Z :=
  match n with
  | O => ret exit_status
  | S n' =>
      if exit_status =? 0 then
        exit_status <- shell_turn ;;
        shell_turns n' exit_status
      else ret exit_status
  end.

(** A world at the end of its input. *)
Definition eof_world : world := quiet_world.

(** A world in which this process is the child that [fork] has created. *)
Definition child_world : world := set_pids [0] quiet_world.

(** A world without a process left. *)
Definition no_process_world : world := set_pids [-1] quiet_world.

(** A world without memory left. *)
Definition no_memory_world : world :=
  World [] [] "/" (Some "/home/user")
        (fun _ p => if String.eqb p "/home/user" then Some p else None)
        (fun _ => true) (fun _ => None) 0 [100; 101] [].

(** A world with a line of 512 letters waiting and memory for one buffer
    only. *)
Definition long_line_world : world :=
  World (replicate 512 Byte.x61 ++ [Byte.x0a]) [] "/" (Some "/home/user")
        (fun _ p => if String.eqb p "/home/user" then Some p else None)
        (fun _ => true)
        (fun n => match n with O => Some Junk | S _ => None end)
        0 [100; 101] [].

(** * Properties *)

(** ** Running the monad *)

Lemma bind_ret {A B} (m : M A) (k : A -> M B) (w w' : world) (a : A) :
  m w = Ret a w' -> bind m k w = k a w'.
Proof. intros H. unfold bind. now rewrite H. Qed.

Lemma bind_exit {A B} (m : M A) (k : A -> M B) (w w' : world) (s : Z) :
  m w = Exit s w' -> bind m k w = Exit s w'.
Proof. intros H. unfold bind. now rewrite H. Qed.

Lemma bind_fault {A B} (m : M A) (k : A -> M B) (w : world) (f : fault) :
  m w = Fault f -> bind m k w = Fault f.
Proof. intros H. unfold bind. now rewrite H. Qed.

(** Decide the integer tests of the source once the arithmetic settles them. *)
Ltac ztest :=
  repeat match goal with
    | |- context [Z.eqb ?a ?b] => destruct (Z.eqb_spec a b); try lia
    | |- context [Z.ltb ?a ?b] => destruct (Z.ltb_spec a b); try lia
    | |- context [Z.leb ?a ?b] => destruct (Z.leb_spec a b); try lia
    | |- context [Z.geb ?a ?b] => rewrite (Z.geb_leb a b)
    end.

(** ** Loads and stores on a vector *)

Lemma load_ptr_at (b : block word) (n : nat) (p : word) (w : world) :
  cells b !! n = Some (Some p) -> load_ptr b (Z.of_nat n) w = Ret p w.
Proof.
  intros H. unfold load_ptr, load.
  ztest. now rewrite Nat2Z.id, H.
Qed.

Lemma load_ptr_middle (u : word) (l1 l2 : list (option word)) (p : word)
    (w : world) :
  load_ptr (Block u (l1 ++ Some p :: l2)) (Z.of_nat (length l1)) w = Ret p w.
Proof. apply load_ptr_at. simpl. now apply list_lookup_middle. Qed.

Lemma store_middle {A} (u : word) (l1 l2 : list (option A)) (c : option A)
    (a : A) (w : world) :
  store (Block u (l1 ++ c :: l2)) (Z.of_nat (length l1)) a w
  = Ret (Block u (l1 ++ Some a :: l2)) w.
Proof.
  unfold store. simpl.
  rewrite length_app. simpl.
  ztest. simpl. rewrite Nat2Z.id.
  replace (length l1) with (length l1 + 0)%nat at 1 by lia.
  now rewrite insert_app_r.
Qed.

Lemma store_middle_eq {A} (u : word) (l1 l2 : list (option A)) (c : option A)
    (a : A) (w : world) (i : Z) :
  i = Z.of_nat (length l1) ->
  store (Block u (l1 ++ c :: l2)) i a w = Ret (Block u (l1 ++ Some a :: l2)) w.
Proof. intros ->. apply store_middle. Qed.

Lemma compare_refl (s : string) : String.compare s s = Eq.
Proof.
  pose proof (String.compare_antisym s s) as H.
  destruct (String.compare s s); simpl in H; congruence.
Qed.

Lemma strcmp_tokens (a b : string) (w : world) :
  exists c, strcmp (Ptr a) (Ptr b) w = Ret c w /\ (c =? 0) = String.eqb a b.
Proof.
  unfold strcmp, ret.
  destruct (String.eqb_spec a b) as [->|Hne].
  - rewrite compare_refl. now exists 0.
  - destruct (String.compare a b) eqn:E.
    + apply String.compare_eq_iff in E. contradiction.
    + now exists (-1).
    + now exists 1.
Qed.

Lemma length_token_cells (v : list string) :
  length (token_cells v) = length v.
Proof. unfold token_cells. apply length_fmap. Qed.

Lemma vector_cells (v : list string) :
  vector v = token_cells v ++ [Some NULL].
Proof. reflexivity. Qed.

(** ** The scan for the terminator *)

Section Scan.

Variables (u : word) (w : world).

Lemma count_loop_tokens (v : list string) :
  forall (fuel : nat) (pre rest : list (option word)),
    (length v < fuel)%nat ->
    count_loop fuel (Block u (pre ++ token_cells v ++ Some NULL :: rest))
               (Z.of_nat (length pre)) w
    = Ret (Z.of_nat (length pre + length v)) w.
Proof.
  induction v as [|s v IH]; intros fuel pre rest Hfuel;
    (destruct fuel as [|fuel]; [simpl in Hfuel; lia|]); simpl count_loop.
  - erewrite bind_ret by apply load_ptr_middle. simpl.
    unfold ret. f_equal. lia.
  - erewrite bind_ret by apply load_ptr_middle. cbn [is_null].
    specialize (IH fuel (pre ++ [Some (Ptr s)]) rest).
    rewrite <- app_assoc in IH. simpl in IH.
    rewrite length_app in IH. simpl in IH.
    replace (Z.of_nat (length pre) + 1) with (Z.of_nat (length pre + 1)) by lia.
    rewrite IH by (simpl in Hfuel; lia).
    f_equal. simpl. lia.
Qed.

Lemma token_cells_cons (s : string) (v : list string) :
  token_cells (s :: v) = Some (Ptr s) :: token_cells v.
Proof. reflexivity. Qed.

Lemma token_cells_app (v1 v2 : list string) :
  token_cells (v1 ++ v2) = token_cells v1 ++ token_cells v2.
Proof. unfold token_cells. apply fmap_app. Qed.

Lemma count_loop_vector (v : list string) (rest : list (option word))
    (fuel : nat) :
  (length v < fuel)%nat ->
  count_loop fuel (Block u (vector v ++ rest)) 0 w = Ret (Z.of_nat (length v)) w.
Proof.
  intros H. rewrite vector_cells, <- app_assoc. simpl app.
  exact (count_loop_tokens v fuel [] rest H).
Qed.

End Scan.

Lemma length_vector (v : list string) : length (vector v) = S (length v).
Proof. rewrite vector_cells, length_app, length_token_cells. simpl. lia. Qed.

(** ** The background check *)

Lemma block_check_last (u : word) (v : list string) (s : string)
    (rest : list (option word)) (w : world) :
  block_check (Block u (vector (v ++ [s]) ++ rest)) w =
  if String.eqb s "&"
  then Ret (0, Block u (vector v ++ Some NULL :: rest)) w
  else Ret (1, Block u (vector (v ++ [s]) ++ rest)) w.
Proof.
  unfold block_check.
  erewrite bind_ret.
  2:{ apply count_loop_vector. cbn [cells].
      rewrite (length_app (vector _)), length_vector. lia. }
  rewrite length_app. cbn [length].
  replace (Z.of_nat (length v + 1) - 1) with (Z.of_nat (length (token_cells v)))
    by (rewrite length_token_cells; lia).
  assert (Hc : vector (v ++ [s]) ++ rest
               = token_cells v ++ Some (Ptr s) :: Some NULL :: rest).
  { rewrite vector_cells, token_cells_app, <- !app_assoc. reflexivity. }
  rewrite Hc.
  erewrite bind_ret by apply load_ptr_middle.
  destruct (strcmp_tokens s "&" w) as (c & Hs & Hz).
  erewrite bind_ret by exact Hs.
  rewrite Hz. destruct (String.eqb s "&").
  - erewrite bind_ret by apply store_middle.
    unfold ret. rewrite vector_cells, <- app_assoc. reflexivity.
  - reflexivity.
Qed.

(** C6.  For every non-empty argument vector [v ++ [s]], [block_check] returns
    0 (background) and overwrites the last element with NULL exactly when that
    element is "&"; otherwise it returns 1 and leaves the vector as it is.  In
    particular ["sleep"; "5"; "&"] gives 0 and the vector ["sleep"; "5"]. *)
Theorem block_check_spec (u : word) (v : list string) (s : string)
    (rest : list (option word)) (w : world) :
  block_check (Block u (vector (v ++ [s]) ++ rest)) w
  = (if String.eqb s "&"
     then Ret (0, Block u (vector v ++ Some NULL :: rest)) w
     else Ret (1, Block u (vector (v ++ [s]) ++ rest)) w)
  /\ block_check (Block u (vector ["sleep"; "5"; "&"])) w
     = Ret (0, Block u (vector ["sleep"; "5"] ++ [Some NULL])) w.
Proof.
  split; [apply block_check_last|].
  pose proof (block_check_last u ["sleep"; "5"] "&" [] w) as H.
  rewrite app_nil_r in H. exact H.
Qed.

(** ** Output redirection *)

Lemma load_ptr_skip (u : word) (l1 l2 l3 : list (option word)) (p : word)
    (w : world) (z : Z) :
  z = Z.of_nat (length l1 + length l2) ->
  load_ptr (Block u (l1 ++ l2 ++ Some p :: l3)) z w = Ret p w.
Proof.
  intros ->. rewrite app_assoc, <- length_app. apply load_ptr_middle.
Qed.

Lemma is_redirection_token (s : string) (w : world) :
  is_redirection (Ptr s) w = Ret (is_op s) w.
Proof.
  unfold is_redirection, is_op.
  destruct (strcmp_tokens s ">" w) as (c & Hs & Hz).
  erewrite bind_ret by exact Hs. rewrite Hz.
  destruct (String.eqb s ">"); [reflexivity|].
  destruct (strcmp_tokens s ">>" w) as (c' & Hs' & Hz').
  erewrite bind_ret by exact Hs'. unfold ret. now rewrite Hz'.
Qed.

Lemma word_before_snoc (u : word) (done : list (option word))
    (c : option word) :
  word_before u (done ++ [c]) = c.
Proof.
  unfold word_before. destruct done as [|d done]; [reflexivity|].
  cbn [app]. change (d :: done ++ [c]) with ((d :: done) ++ [c]).
  now rewrite last_snoc.
Qed.

Lemma load_word_before (u : word) (done tl : list (option word)) (p : word)
    (w : world) :
  word_before u done = Some p ->
  load_ptr (Block u (done ++ tl)) (Z.of_nat (length done) - 1) w = Ret p w.
Proof.
  destruct done as [|c done' _] using rev_ind; intros H.
  - simpl in *. injection H as ->. reflexivity.
  - rewrite word_before_snoc in H. subst c.
    rewrite <- app_assoc, length_app. cbn [app length].
    replace (Z.of_nat (length done' + 1) - 1) with (Z.of_nat (length done'))
      by lia.
    apply load_ptr_middle.
Qed.

Lemma shift_loop_spec (u : word) (w : world) (post : list string) :
  forall (fuel : nat) (done : list (option word)) (x y : option word)
         (rest : list (option word)) (p : word),
    (length post + 1 < fuel)%nat ->
    word_before u done = Some p -> is_null p = false ->
    shift_loop fuel
      (Block u (done ++ x :: y :: token_cells post ++ Some NULL :: rest))
      (Z.of_nat (length done)) w
    = Ret (Block u (done ++ token_cells post ++
                    Some NULL :: default y (last (token_cells post))
                    :: Some NULL :: rest)) w.
Proof.
  induction post as [|t post IH]; intros fuel done x y rest p Hfuel Hb Hp;
    (destruct fuel as [|fuel]; [simpl in Hfuel; lia|]); cbn [shift_loop].
  - erewrite bind_ret by (apply load_word_before; exact Hb). rewrite Hp.
    erewrite bind_ret.
    2:{ apply (load_ptr_skip u done [x; y] rest NULL). simpl. lia. }
    erewrite bind_ret by apply store_middle.
    destruct fuel as [|fuel]; [simpl in Hfuel; lia|]. cbn [shift_loop].
    erewrite bind_ret.
    2:{ replace (Z.of_nat (length done) + 1 - 1) with (Z.of_nat (length done))
          by lia.
        apply load_ptr_middle. }
    reflexivity.
  - rewrite token_cells_cons. cbn [app].
    erewrite bind_ret by (apply load_word_before; exact Hb). rewrite Hp.
    erewrite bind_ret.
    2:{ apply (load_ptr_skip u done [x; y] _ (Ptr t)). simpl. lia. }
    erewrite bind_ret by apply store_middle.
    specialize (IH fuel (done ++ [Some (Ptr t)]) y (Some (Ptr t)) rest (Ptr t)).
    rewrite length_app in IH. cbn [length] in IH.
    replace (Z.of_nat (length done) + 1) with (Z.of_nat (length done + 1)) by lia.
    rewrite <- !app_assoc in IH. cbn [app] in IH.
    rewrite IH.
    + assert (E : default y (last (Some (Ptr t) :: token_cells post))
                  = default (Some (Ptr t)) (last (token_cells post))).
      { destruct (token_cells post) as [|c l _] using rev_ind; [reflexivity|].
        rewrite last_snoc.
        change (Some (Ptr t) :: l ++ [c]) with ((Some (Ptr t) :: l) ++ [c]).
        now rewrite last_snoc. }
      now rewrite E.
    + simpl in Hfuel. lia.
    + apply word_before_snoc.
    + reflexivity.
Qed.

Lemma redirection_loop_skip (u : word) (w : world) (pre : list string) :
  forall (fuel : nat) (done tl : list (option word)),
    forallb (fun s => negb (is_op s)) pre = true ->
    redirection_loop (length pre + fuel)
      (Block u (done ++ token_cells pre ++ tl)) (Z.of_nat (length done)) w
    = redirection_loop fuel
        (Block u (done ++ token_cells pre ++ tl))
        (Z.of_nat (length done + length pre)) w.
Proof.
  induction pre as [|s pre IH]; intros fuel done tl Hpre.
  - cbn [length Nat.add]. now rewrite Nat.add_0_r.
  - cbn [forallb] in Hpre. apply andb_prop in Hpre as [Hs Hpre].
    cbn [length Nat.add redirection_loop].
    rewrite token_cells_cons. cbn [app].
    erewrite bind_ret by apply load_ptr_middle. cbn [is_null].
    erewrite bind_ret by apply is_redirection_token.
    apply negb_true_iff in Hs. rewrite Hs.
    specialize (IH fuel (done ++ [Some (Ptr s)]) tl Hpre).
    rewrite <- !app_assoc, length_app in IH. cbn [app length] in IH.
    replace (Z.of_nat (length done) + 1) with (Z.of_nat (length done + 1))
      by lia.
    rewrite IH. f_equal. lia.
Qed.

Lemma redirection_loop_skip0 (u : word) (w : world) (pre : list string)
    (fuel : nat) (tl : list (option word)) :
  forallb (fun s => negb (is_op s)) pre = true ->
  redirection_loop (length pre + fuel) (Block u (token_cells pre ++ tl)) 0 w
  = redirection_loop fuel (Block u (token_cells pre ++ tl))
      (Z.of_nat (length pre)) w.
Proof. intros H. exact (redirection_loop_skip u w pre fuel [] tl H). Qed.

Lemma word_before_tokens (u : word) (pre : list string) :
  (pre = [] -> u <> NULL) ->
  exists p, word_before u (token_cells pre) = Some p /\ is_null p = false.
Proof.
  intros Hu. destruct pre as [|s pre _] using rev_ind.
  - exists u. split; [reflexivity|].
    destruct u; try reflexivity. now destruct Hu.
  - exists (Ptr s). rewrite token_cells_app. cbn [token_cells fmap list_fmap].
    now rewrite word_before_snoc.
Qed.

Lemma last_token_cells (post : list string) (file : string) :
  default (Some (Ptr file)) (last (token_cells post))
  = Some (Ptr (default file (last post))).
Proof.
  destruct post as [|s post _] using rev_ind; [reflexivity|].
  rewrite token_cells_app. cbn [token_cells fmap list_fmap].
  now rewrite !last_snoc.
Qed.

Lemma forallb_length_fuel (pre : list string) (n : nat) :
  (length pre < n)%nat -> exists fuel, n = (length pre + S fuel)%nat.
Proof. intros H. exists (n - length pre - 1)%nat. lia. Qed.

Lemma output_redirection_cases (u : word) (rest : list (option word))
    (w : world) (pre : list string) :
  forallb (fun s => negb (is_op s)) pre = true ->
  output_redirection (Block u (vector pre ++ rest)) w
    = Ret (NULL, Block u (vector pre ++ rest)) w
  /\ forall op : string, is_op op = true ->
     output_redirection (Block u (vector (pre ++ [op]) ++ rest)) w
       = Exit 1 (set_stdout (stdout w ++ ["must specify output file" ++ nl]%string) w)
     /\ forall (file : string) (post : list string),
        (pre = [] -> u <> NULL) ->
        output_redirection
          (Block u (vector (pre ++ op :: file :: post) ++ rest)) w
        = Ret (Ptr file,
               Block u (vector (pre ++ post) ++
                        Some (Ptr (default file (last post)))
                        :: Some NULL :: rest)) w.
Proof.
  intros Hpre. split; [|intros op Hop; split; [|intros file post Hu]];
    unfold output_redirection; cbn [cells].
  - destruct (forallb_length_fuel pre (S (length (vector pre ++ rest))))
      as [fuel ->].
    { rewrite length_app, length_vector. lia. }
    rewrite vector_cells, <- app_assoc.
    rewrite (redirection_loop_skip0 u w pre (S fuel) _ Hpre).
    cbn [redirection_loop length Nat.add app].
    erewrite bind_ret.
    2:{ apply (load_ptr_skip u [] (token_cells pre) rest NULL).
        now rewrite length_token_cells. }
    reflexivity.
  - destruct (forallb_length_fuel pre
                (S (length (vector (pre ++ [op]) ++ rest)))) as [fuel ->].
    { rewrite length_app, length_vector, length_app. lia. }
    rewrite vector_cells, token_cells_app, <- !app_assoc.
    rewrite (redirection_loop_skip0 u w pre (S fuel) _ Hpre).
    cbn [redirection_loop length Nat.add app token_cells fmap list_fmap].
    erewrite bind_ret.
    2:{ apply (load_ptr_skip u [] (token_cells pre) _ (Ptr op)).
        now rewrite length_token_cells. }
    cbn [is_null].
    erewrite bind_ret by apply is_redirection_token. rewrite Hop.
    erewrite bind_ret.
    2:{ apply (load_ptr_skip u (token_cells pre) [Some (Ptr op)] rest NULL).
        rewrite length_token_cells. simpl. lia. }
    reflexivity.
  - destruct (forallb_length_fuel pre
                (S (length (vector (pre ++ op :: file :: post) ++ rest))))
      as [fuel Hfuel].
    { rewrite length_app, length_vector, length_app. lia. }
    rewrite Hfuel.
    assert (Hc : vector (pre ++ op :: file :: post) ++ rest
                 = token_cells pre ++ Some (Ptr op) :: Some (Ptr file)
                   :: token_cells post ++ Some NULL :: rest).
    { rewrite vector_cells, token_cells_app, <- !app_assoc. reflexivity. }
    rewrite Hc in *.
    rewrite (redirection_loop_skip0 u w pre (S fuel) _ Hpre).
    cbn [redirection_loop length Nat.add app].
    erewrite bind_ret.
    2:{ apply (load_ptr_skip u [] (token_cells pre) _ (Ptr op)).
        now rewrite length_token_cells. }
    cbn [is_null].
    erewrite bind_ret by apply is_redirection_token. rewrite Hop.
    erewrite bind_ret.
    2:{ apply (load_ptr_skip u (token_cells pre) [Some (Ptr op)] _ (Ptr file)).
        rewrite length_token_cells. simpl. lia. }
    cbn [is_null].
    erewrite bind_ret by reflexivity.
    destruct (word_before_tokens u pre Hu) as (p & Hb & Hp).
    erewrite bind_ret.
    2:{ rewrite <- (length_token_cells pre).
        apply (shift_loop_spec u w post _ (token_cells pre) _ _ rest p);
          [|exact Hb|exact Hp].
        cbn [cells]. rewrite length_app. cbn [length].
        rewrite length_app, !length_token_cells. cbn [length]. lia. }
    unfold ret. rewrite last_token_cells, vector_cells, token_cells_app,
      <- !app_assoc. reflexivity.
Qed.

(** When the operator is element 0 the test of the shifting loop, line 314,
    is on [command_line_args[-1]].  If the word stored there is null the loop
    does not run: the file name is returned and the vector is left as it
    was. *)
Lemma output_redirection_no_shift (rest : list (option word)) (w : world)
    (op file : string) (post : list string) :
  is_op op = true ->
  output_redirection (Block NULL (vector (op :: file :: post) ++ rest)) w
  = Ret (Ptr file, Block NULL (vector (op :: file :: post) ++ rest)) w.
Proof.
  intros Hop. unfold output_redirection.
  cbn [redirection_loop].
  erewrite bind_ret by reflexivity. cbn [is_null].
  erewrite bind_ret by apply is_redirection_token. rewrite Hop.
  erewrite bind_ret by reflexivity. cbn [is_null].
  erewrite bind_ret by reflexivity.
  cbn [shift_loop].
  erewrite bind_ret by reflexivity.
  reflexivity.
Qed.

(** C4 on the code.  [output_redirection] acts on the first ">" or ">>" only
    ([pre] holds no operator, [post] is arbitrary).  Without an operator it
    returns NULL and leaves the vector alone.  With an operator that nothing
    follows it prints "must specify output file" and exits with status 1.
    Otherwise it returns the element after the operator, but what it removes
    depends on memory outside of the vector when the operator is element 0:
    the shifting loop then starts by loading [command_line_args[-1]], and if
    that word is null nothing is removed.  In every other case the operator
    and the file name are removed, the other elements keeping their order and
    the vector its terminator. *)
Theorem output_redirection_spec (u : word) (rest : list (option word))
    (w : world) (pre : list string) :
  forallb (fun s => negb (is_op s)) pre = true ->
  output_redirection (Block u (vector pre ++ rest)) w
    = Ret (NULL, Block u (vector pre ++ rest)) w
  /\ forall op : string, is_op op = true ->
     output_redirection (Block u (vector (pre ++ [op]) ++ rest)) w
       = Exit 1 (set_stdout (stdout w ++ ["must specify output file" ++ nl]%string) w)
     /\ forall (file : string) (post : list string),
        output_redirection
          (Block u (vector (pre ++ op :: file :: post) ++ rest)) w
        = Ret (Ptr file,
               if match pre with [] => is_null u | _ :: _ => false end
               then Block u (vector (op :: file :: post) ++ rest)
               else Block u (vector (pre ++ post) ++
                             Some (Ptr (default file (last post)))
                             :: Some NULL :: rest)) w.
Proof.
  intros Hpre.
  destruct (output_redirection_cases u rest w pre Hpre) as [Hnone Hop].
  split; [exact Hnone|]. intros op Ho.
  destruct (Hop op Ho) as [Hexit Hfile].
  split; [exact Hexit|]. intros file post.
  destruct pre as [|s pre].
  - destruct u; cbn [is_null app].
    + now apply output_redirection_no_shift.
    + apply (Hfile file post). discriminate.
    + apply (Hfile file post). discriminate.
  - apply Hfile. discriminate.
Qed.

(** An instance: with a null word under the vector the operator and the file
    name of [">"; "out"; "ls"] stay where they were. *)
Example output_redirection_under_null (w : world) :
  output_redirection (Block NULL (vector [">"; "out"; "ls"])) w
  = Ret (Ptr "out", Block NULL (vector [">"; "out"; "ls"])) w.
Proof. reflexivity. Qed.

(** ** The pipe check *)

Section Pipe_check.

Variables (u : word) (w : world).

Lemma pipe_loop_skip (pre : list string) :
  forall (fuel : nat) (done tl : list (option word)),
    forallb (fun s => negb (is_pipe s)) pre = true ->
    pipe_loop (length pre + fuel)
      (Block u (done ++ token_cells pre ++ tl)) (Z.of_nat (length done)) w
    = pipe_loop fuel
        (Block u (done ++ token_cells pre ++ tl))
        (Z.of_nat (length done + length pre)) w.
Proof.
  induction pre as [|s pre IH]; intros fuel done tl Hpre.
  - cbn [length Nat.add]. now rewrite Nat.add_0_r.
  - cbn [forallb] in Hpre. apply andb_prop in Hpre as [Hs Hpre].
    cbn [length Nat.add pipe_loop].
    rewrite token_cells_cons. cbn [app].
    erewrite bind_ret by apply load_ptr_middle. cbn [is_null].
    destruct (strcmp_tokens s "|" w) as (c & Hc & Hz).
    erewrite bind_ret by exact Hc. rewrite Hz.
    apply negb_true_iff in Hs. unfold is_pipe in Hs. rewrite Hs.
    specialize (IH fuel (done ++ [Some (Ptr s)]) tl Hpre).
    rewrite <- !app_assoc, length_app in IH. cbn [app length] in IH.
    replace (Z.of_nat (length done) + 1) with (Z.of_nat (length done + 1))
      by lia.
    rewrite IH. f_equal. lia.
Qed.

Lemma pipe_loop_skip0 (pre : list string) (fuel : nat)
    (tl : list (option word)) :
  forallb (fun s => negb (is_pipe s)) pre = true ->
  pipe_loop (length pre + fuel) (Block u (token_cells pre ++ tl)) 0 w
  = pipe_loop fuel (Block u (token_cells pre ++ tl)) (Z.of_nat (length pre)) w.
Proof. intros H. exact (pipe_loop_skip pre fuel [] tl H). Qed.

Lemma pipe_check_none (v : list string) (rest : list (option word)) :
  forallb (fun s => negb (is_pipe s)) v = true ->
  pipe_check (Block u (vector v ++ rest)) w = Ret (-1) w.
Proof.
  intros Hv. unfold pipe_check. cbn [cells].
  destruct (forallb_length_fuel v (S (length (vector v ++ rest))))
    as [fuel ->].
  { rewrite length_app, length_vector. lia. }
  rewrite vector_cells, <- app_assoc.
  rewrite (pipe_loop_skip0 v (S fuel) _ Hv).
  cbn [pipe_loop length Nat.add app].
  erewrite bind_ret.
  2:{ apply (load_ptr_skip u [] (token_cells v) rest NULL).
      now rewrite length_token_cells. }
  reflexivity.
Qed.

Lemma pipe_check_first (pre post : list string)
    (rest : list (option word)) :
  forallb (fun s => negb (is_pipe s)) pre = true ->
  pipe_check (Block u (vector (pre ++ "|" :: post) ++ rest)) w
  = Ret (Z.of_nat (length pre)) w.
Proof.
  intros Hv. unfold pipe_check. cbn [cells].
  destruct (forallb_length_fuel pre
              (S (length (vector (pre ++ "|" :: post) ++ rest)))) as [fuel ->].
  { rewrite length_app, length_vector, length_app. lia. }
  rewrite vector_cells, token_cells_app, <- !app_assoc.
  rewrite (pipe_loop_skip0 pre (S fuel) _ Hv).
  cbn [pipe_loop length Nat.add app]. rewrite token_cells_cons. cbn [app].
  erewrite bind_ret.
  2:{ apply (load_ptr_skip u [] (token_cells pre) _ (Ptr "|")).
      now rewrite length_token_cells. }
  cbn [is_null].
  destruct (strcmp_tokens "|" "|" w) as (c & Hc & Hz).
  erewrite bind_ret by exact Hc. rewrite Hz. reflexivity.
Qed.

End Pipe_check.

Lemma argv_vector (v : list string) (rest : list (option word)) :
  argv (vector v ++ rest) = Some (Ptr <$> v).
Proof.
  induction v as [|s v IH]; [reflexivity|].
  change (vector (s :: v) ++ rest) with (Some (Ptr s) :: (vector v ++ rest)).
  cbn [argv]. now rewrite IH.
Qed.

(** ** Classification *)


Lemma forallb_app_inv {A} (f : A -> bool) (l1 l2 : list A) :
  forallb f (l1 ++ l2) = true -> forallb f l1 = true /\ forallb f l2 = true.
Proof. rewrite forallb_app. apply andb_prop. Qed.
















(** ** The split of a piped command *)

Lemma store_at_middle (u : word) (l1 l2 : list (option word))
    (c : option word) (a : word) (w : world) :
  store_at (Some (Block u (l1 ++ c :: l2))) (Z.of_nat (length l1)) a w
  = Ret (Some (Block u (l1 ++ Some a :: l2))) w.
Proof.
  unfold store_at. cbn [deref].
  erewrite bind_ret by reflexivity.
  erewrite bind_ret by apply store_middle.
  reflexivity.
Qed.

Lemma left_loop_spec (u ul : word) (w : world) (r : list string) :
  forall (fuel : nat) (d : list string) (tl : list (option word)) (p : word),
    (length r + 1 < fuel)%nat ->
    word_before u (token_cells d) = Some p -> is_null p = false ->
    left_loop fuel
      (Block u (token_cells d ++ token_cells r ++ Some NULL :: tl))
      (Some (Block ul (token_cells d ++ replicate (S (length r)) None)))
      (Z.of_nat (length d)) w
    = Ret (Some (Block ul (vector (d ++ r))),
           Z.of_nat (length d + length r + 1)) w.
Proof.
  induction r as [|t r IH]; intros fuel d tl p Hfuel Hb Hp;
    (destruct fuel as [|fuel]; [simpl in Hfuel; lia|]); cbn [left_loop];
    rewrite <- (length_token_cells d).
  - erewrite bind_ret by (apply load_word_before; exact Hb). rewrite Hp.
    cbn [token_cells fmap list_fmap app replicate length].
    erewrite bind_ret by apply load_ptr_middle.
    erewrite bind_ret by apply store_at_middle.
    destruct fuel as [|fuel]; [simpl in Hfuel; lia|]. cbn [left_loop].
    erewrite bind_ret.
    2:{ replace (Z.of_nat (length (token_cells d)) + 1 - 1)
          with (Z.of_nat (length (token_cells d))) by lia.
        apply load_ptr_middle. }
    cbn [is_null]. unfold ret. rewrite app_nil_r, vector_cells.
    repeat f_equal. rewrite length_token_cells. lia.
  - erewrite bind_ret by (apply load_word_before; exact Hb). rewrite Hp.
    rewrite token_cells_cons. cbn [app replicate length].
    erewrite bind_ret by apply load_ptr_middle.
    erewrite bind_ret by apply store_at_middle.
    specialize (IH fuel (d ++ [t]) tl (Ptr t)).
    rewrite token_cells_app, <- !app_assoc, length_app in IH.
    cbn [token_cells fmap list_fmap app length] in IH.
    rewrite length_token_cells.
    replace (Z.of_nat (length d) + 1) with (Z.of_nat (length d + 1)) by lia.
    fold (token_cells d) in IH. fold (token_cells r) in IH.
    cbn [replicate] in IH. rewrite IH.
    + f_equal. f_equal. lia.
    + simpl in Hfuel. lia.
    + apply (word_before_snoc u (token_cells d) (Some (Ptr t))).
    + reflexivity.
Qed.

Lemma right_loop_spec (u ur : word) (w : world) (r : list string) :
  forall (fuel : nat) (front : list (option word)) (d : list string)
         (tl : list (option word)),
    (length r < fuel)%nat ->
    right_loop fuel
      (Block u (front ++ token_cells r ++ Some NULL :: tl))
      (Some (Block ur (token_cells d ++ replicate (length r) None)))
      (Z.of_nat (length d)) (Z.of_nat (length front)) w
    = Ret (Some (Block ur (token_cells (d ++ r))),
           Z.of_nat (length d + length r)) w.
Proof.
  induction r as [|t r IH]; intros fuel front d tl Hfuel;
    (destruct fuel as [|fuel]; [simpl in Hfuel; lia|]); cbn [right_loop].
  - cbn [token_cells fmap list_fmap app replicate length].
    erewrite bind_ret by apply load_ptr_middle. cbn [is_null].
    unfold ret. rewrite !app_nil_r. repeat f_equal. lia.
  - rewrite token_cells_cons. cbn [app replicate length].
    erewrite bind_ret by apply load_ptr_middle. cbn [is_null].
    rewrite <- (length_token_cells d).
    erewrite bind_ret by apply store_at_middle.
    specialize (IH fuel (front ++ [Some (Ptr t)]) (d ++ [t]) tl).
    rewrite token_cells_app, <- !app_assoc, !length_app in IH.
    cbn [token_cells fmap list_fmap app length] in IH.
    fold (token_cells d) in IH. fold (token_cells r) in IH.
    rewrite length_token_cells.
    replace (Z.of_nat (length d) + 1) with (Z.of_nat (length d + 1)) by lia.
    replace (Z.of_nat (length front) + 1)
      with (Z.of_nat (length front + 1)) by lia.
    rewrite IH by (simpl in Hfuel; lia).
    f_equal. f_equal. cbn [length]. lia.
Qed.

Lemma right_loop_from (u ur : word) (w : world) (post : list string)
    (fuel : nat) (front tl : list (option word)) (i : Z) :
  (length post < fuel)%nat ->
  i = Z.of_nat (length front) ->
  right_loop fuel (Block u (front ++ token_cells post ++ Some NULL :: tl))
    (Some (Block ur (replicate (length post) None))) 0 i w
  = Ret (Some (Block ur (token_cells post)), Z.of_nat (length post)) w.
Proof.
  intros Hfuel ->.
  exact (right_loop_spec u ur w post fuel front [] tl Hfuel).
Qed.

Lemma malloc_words_ok (n : nat) (u : word) (w : world) :
  heap w (allocs w) = Some u ->
  malloc_words (Z.of_nat n) w
  = Ret (Some (Block u (replicate n None))) (set_allocs (S (allocs w)) w).
Proof.
  intros H. unfold malloc_words, malloc. ztest. rewrite H.
  unfold sizeof_ptr. now rewrite Z.div_mul, Nat2Z.id by lia.
Qed.

Lemma store_out_of_bounds {A} (b : block A) (i : Z) (a : A) (w : world) :
  Z.of_nat (length (cells b)) <= i ->
  store b i a w = Fault (OutOfBounds i (length (cells b))).
Proof. intros H. unfold store. ztest; reflexivity. Qed.

Lemma store_at_out_of_bounds (b : block word) (i : Z) (a : word) (w : world) :
  Z.of_nat (length (cells b)) <= i ->
  store_at (Some b) i a w = Fault (OutOfBounds i (length (cells b))).
Proof.
  intros H. unfold store_at, bind. cbn [deref ret].
  now rewrite store_out_of_bounds.
Qed.

(** Lines 397-422 on a vector whose first "|" is at index [length pre]. *)
Lemma pipe_copy_vector (u ul ur : word) (w : world)
    (pre post : list string) (rest : list (option word)) :
  u <> NULL ->
  heap w (allocs w) = Some ul ->
  heap w (S (allocs w)) = Some ur ->
  pipe_copy (Block u (vector (pre ++ "|" :: post) ++ rest))
            (Z.of_nat (length pre)) w
  = Ret (Some (Block ul (vector pre)), Some (Block ur (token_cells post)),
         Z.of_nat (length post))
        (set_allocs (S (S (allocs w))) w).
Proof.
  intros Hu Hl Hr.
  unfold pipe_copy, count_command_line_args.
  erewrite bind_ret.
  2:{ apply count_loop_vector. cbn [cells].
      rewrite (length_app (vector _)), length_vector. lia. }
  assert (Hc : vector (pre ++ "|" :: post) ++ rest
               = token_cells pre ++ Some (Ptr "|")
                 :: token_cells post ++ Some NULL :: rest).
  { rewrite vector_cells, token_cells_app, <- !app_assoc. reflexivity. }
  rewrite Hc.
  rewrite <- (length_token_cells pre) at 1.
  erewrite bind_ret by apply store_middle.
  replace (Z.of_nat (length pre) + 1) with (Z.of_nat (S (length pre))) by lia.
  erewrite bind_ret by (apply malloc_words_ok; exact Hl).
  replace (Z.of_nat (length (pre ++ "|" :: post)) - Z.of_nat (S (length pre)))
    with (Z.of_nat (length post))
    by (rewrite length_app; cbn [length]; lia).
  erewrite bind_ret by (apply malloc_words_ok; exact Hr).
  erewrite bind_ret.
  2:{ apply (left_loop_spec u ul _ pre _ [] _ u).
      - cbn [cells]. rewrite length_app, length_token_cells. lia.
      - reflexivity.
      - now destruct u. }
  cbn [app length Nat.add].
  erewrite bind_ret.
  2:{ replace (token_cells pre ++ Some NULL
               :: token_cells post ++ Some NULL :: rest)
        with ((token_cells pre ++ [Some NULL])
              ++ token_cells post ++ Some NULL :: rest)
        by now rewrite <- app_assoc.
      apply right_loop_from.
      - cbn [cells]. rewrite !length_app, !length_token_cells. lia.
      - rewrite length_app, length_token_cells. cbn [length]. lia. }
  reflexivity.
Qed.

(** Line 425 after that copy. *)
Lemma pipe_split_vector (u ul ur : word) (w : world)
    (pre post : list string) (rest : list (option word)) :
  u <> NULL ->
  heap w (allocs w) = Some ul ->
  heap w (S (allocs w)) = Some ur ->
  pipe_split (Block u (vector (pre ++ "|" :: post) ++ rest))
             (Z.of_nat (length pre)) w
  = Fault (OutOfBounds (Z.of_nat (length post) + 1) (length post)).
Proof.
  intros Hu Hl Hr. unfold pipe_split.
  erewrite bind_ret by (apply pipe_copy_vector; eassumption). cbv beta iota.
  erewrite bind_fault; [reflexivity|].
  rewrite store_at_out_of_bounds; cbn [cells]; rewrite length_token_cells;
    [reflexivity|lia].
Qed.

(** C1 on the code.  For every vector [pre ++ "|" :: post] whose first "|" is
    at index [length pre], and when both allocations succeed: [pipe_check]
    returns that index; the copy gives a left vector that holds [pre] and its
    terminator, and a right buffer whose [length post] cells all hold elements
    of [post], none being left for a terminator; the terminating store of line
    425 then goes to index [length post + 1] of that buffer, outside of it. *)
Theorem pipe_split_out_of_bounds (u ul ur : word) (w : world)
    (pre post : list string) (rest : list (option word)) :
  forallb (fun s => negb (is_pipe s)) pre = true ->
  u <> NULL ->
  heap w (allocs w) = Some ul ->
  heap w (S (allocs w)) = Some ur ->
  let args := Block u (vector (pre ++ "|" :: post) ++ rest) in
  pipe_check args w = Ret (Z.of_nat (length pre)) w
  /\ pipe_copy args (Z.of_nat (length pre)) w
     = Ret (Some (Block ul (vector pre)), Some (Block ur (token_cells post)),
            Z.of_nat (length post))
           (set_allocs (S (S (allocs w))) w)
  /\ pipe_split args (Z.of_nat (length pre)) w
     = Fault (OutOfBounds (Z.of_nat (length post) + 1) (length post)).
Proof.
  intros Hpre Hu Hl Hr args. split; [|split].
  - unfold args. now apply pipe_check_first.
  - unfold args. now apply pipe_copy_vector.
  - unfold args. now apply (pipe_split_vector u ul ur).
Qed.

(** ** The launchers *)

Lemma ltb_0_false (p : Z) : 0 <= p -> (p <? 0) = false.
Proof. intros H. now apply Z.ltb_ge. Qed.

Lemma eqb_0_false (p : Z) : p <> 0 -> (p =? 0) = false.
Proof. intros H. now apply Z.eqb_neq. Qed.

(** The calls of [pipe_launch] in the parent once the first fork has returned
    a child: the test after the second fork looks at [pid1], so the value of
    [pid2] only matters for being the child or not. *)
Lemma pipe_launch_parent (w : world) (pid1 pid2 : Z) (rest : list Z)
    (blk : Z) (output_file : word) (pipe_left pipe_right : option (block word)) :
  pids w = pid1 :: pid2 :: rest ->
  0 < pid1 -> pid2 <> 0 ->
  pipe_launch pipe_left pipe_right blk output_file w
  = Ret tt (set_calls
              (calls w ++
               [Pipe; Fork pid1; Fork pid2; Close PIPE_R; Close PIPE_W;
                Waitpid pid1; Waitpid pid2])
              (set_pids rest w)).
Proof.
  intros Hp H1 H2.
  unfold pipe_launch, bind, syscall_, fork, ret.
  cbn [pids set_calls set_pids calls]. rewrite Hp.
  rewrite (ltb_0_false pid1), (eqb_0_false pid1) by lia.
  cbn [pids set_calls set_pids calls].
  rewrite (eqb_0_false pid2) by lia.
  cbv [set_calls set_pids pids calls stdin stdout cwd home lookup_dir
       executable heap allocs].
  now rewrite <- !app_assoc.
Qed.



(** C3 on the code.  A failure of the first fork is detected: the shell prints
    "unable to fork first child" and exits with status 1.  A failure of the
    second fork is not: line 463 tests [pid1] again, so the launcher goes on,
    prints nothing and returns after waiting. *)
Theorem pipe_launch_fork_failures (w : world) (pid1 pid2 : Z) (rest : list Z)
    (blk : Z) (output_file : word)
    (pipe_left pipe_right : option (block word)) :
  (pids w = pid1 :: rest -> pid1 < 0 ->
   pipe_launch pipe_left pipe_right blk output_file w
   = Exit 1 (set_stdout (stdout w ++ ["unable to fork first child" ++ nl]%string)
               (set_calls (calls w ++ [Pipe; Fork pid1]) (set_pids rest w))))
  /\ (pids w = pid1 :: pid2 :: rest -> 0 < pid1 -> pid2 < 0 ->
      pipe_launch pipe_left pipe_right blk output_file w
      = Ret tt (set_calls
                  (calls w ++
                   [Pipe; Fork pid1; Fork pid2; Close PIPE_R; Close PIPE_W;
                    Waitpid pid1; Waitpid pid2])
                  (set_pids rest w))).
Proof.
  split.
  - intros Hp H1.
    unfold pipe_launch, bind, syscall_, fork, ret.
    cbn [pids set_calls set_pids calls]. rewrite Hp.
    replace (pid1 <? 0) with true by (symmetry; now apply Z.ltb_lt).
    cbv [printf exit set_stdout set_calls set_pids pids calls stdin stdout cwd
         home lookup_dir executable heap allocs].
    now rewrite <- !app_assoc.
  - intros Hp H1 H2. apply pipe_launch_parent; [exact Hp|lia|lia].
Qed.
(** ** Builtins *)

Lemma print_all_ok (l : list string) (w : world) :
  print_all l w = Ret tt (set_stdout (stdout w ++ l) w).
Proof.
  revert w. induction l as [|s l IH]; intros w; cbn [print_all].
  - unfold ret, set_stdout. rewrite app_nil_r. now destruct w.
  - unfold bind, printf. rewrite IH. unfold set_stdout. cbn.
    now rewrite <- app_assoc.
Qed.

(** C8.  A vector whose element 0 is "exit" makes [execute_command_line]
    return 1, whatever follows, without touching the world: nothing is forked
    or executed.  When the line read at the first prompt tokenizes to such a
    vector, the loop ends with that iteration and [main] returns 0. *)
Theorem exit_ends_session (u : word) (v : list string)
    (rest : list (option word)) (w : world) :
  execute_command_line (Block u (vector ("exit" :: v) ++ rest)) w = Ret 1 w
  /\ forall (fuel : nat) (w0 w1 : world) (command_line : block Z)
            (line : string),
       read_command_line
         (set_stdout (stdout w0 ++ banner ++ ["$ "]) w0) = Ret command_line w1 ->
       string_at command_line w1 = Ret line w1 ->
       parse_command_line line w1
         = Ret (Block u (vector ("exit" :: v) ++ rest)) w ->
       main (S fuel) w0 = Ret 0 w.
Proof.
  assert (Hexit : execute_command_line
                    (Block u (vector ("exit" :: v) ++ rest)) w = Ret 1 w)
    by reflexivity.
  split; [exact Hexit|].
  intros fuel w0 w1 command_line line Hread Hstr Hparse.
  unfold main. erewrite bind_ret by apply print_all_ok.
  erewrite bind_ret; [reflexivity|].
  cbn [shell_loop Z.eqb].
  erewrite bind_ret by reflexivity.
  erewrite bind_ret.
  2:{ unfold set_stdout in *. cbn. rewrite <- app_assoc. exact Hread. }
  erewrite bind_ret by exact Hstr.
  erewrite bind_ret by exact Hparse.
  erewrite bind_ret by exact Hexit.
  destruct fuel; reflexivity.
Qed.

(** C9.  [cd] with no argument or with "~" moves to the directory that the
    value of HOME designates (HOME being set and [chdir] succeeding) and prints
    nothing.  [cd] with another argument on which [chdir] fails prints
    "cd: <path>: No such file or directory", leaves the working directory as
    it was and returns normally. *)
Theorem execute_cd_spec (u : word) (rest : list (option word)) (w : world)
    (a0 : string) :
  (forall (tail : list string) (h d : string),
      tail = [] \/ (exists v, tail = "~" :: v) ->
      home w = Some h ->
      lookup_dir w (cwd w) h = Some d ->
      execute_cd (Block u (vector (a0 :: tail) ++ rest)) w
      = Ret tt (set_cwd d w))
  /\ (forall (path : string) (v : list string),
        path <> "~" ->
        lookup_dir w (cwd w) path = None ->
        execute_cd (Block u (vector (a0 :: path :: v) ++ rest)) w
        = Ret tt (set_stdout
                    (stdout w ++
                     ["cd: " ++ path ++ ": No such file or directory" ++ nl]%string)
                    w)).
Proof.
  split.
  - intros tail h d [->|[v ->]] Hh Hd; unfold execute_cd;
      (erewrite bind_ret by reflexivity); cbn [is_null].
    + erewrite bind_ret by reflexivity.
      unfold bind, getenv, chdir. cbn. rewrite Hh. cbv iota. now rewrite Hd.
    + destruct (strcmp_tokens "~" "~" w) as (c & Hc & Hz).
      erewrite bind_ret.
      2:{ erewrite bind_ret by exact Hc. reflexivity. }
      rewrite Hz. change (String.eqb "~" "~") with true. cbv iota.
      unfold bind, getenv, chdir. cbn. rewrite Hh. cbv iota. now rewrite Hd.
  - intros path v Hne Hd. unfold execute_cd.
    erewrite bind_ret by reflexivity. cbn [is_null].
    destruct (strcmp_tokens path "~" w) as (c & Hc & Hz).
    erewrite bind_ret.
    2:{ erewrite bind_ret by exact Hc. reflexivity. }
    rewrite Hz. destruct (String.eqb_spec path "~") as [->|_]; [contradiction|].
    unfold bind, chdir. rewrite Hd. reflexivity.
Qed.

(** On the HOME path the result of [chdir] is not looked at: when HOME is not
    set, or names a directory that cannot be entered, [cd] changes nothing and
    prints nothing. *)
Lemma execute_cd_home_unusable (u : word) (rest : list (option word))
    (w : world) (a0 : string) :
  (home w = None
   \/ exists h, home w = Some h /\ lookup_dir w (cwd w) h = None) ->
  execute_cd (Block u (vector [a0] ++ rest)) w = Ret tt w.
Proof.
  intros H. unfold execute_cd.
  erewrite bind_ret by reflexivity. cbn [is_null].
  erewrite bind_ret by reflexivity.
  unfold bind, getenv, chdir. cbn.
  destruct H as [->|(h & -> & Hd)]; [reflexivity|].
  cbv iota. now rewrite Hd.
Qed.

(** ** Reading a line *)

(** The test [c == EOF || c == '\n'] on the character stored from a byte. *)
Lemma ends_line_char (c : Byte.byte) :
  (char_of_byte c =? EOF) || (char_of_byte c =? 10) = ends_line c.
Proof. destruct c; vm_compute; reflexivity. Qed.

Lemma realloc_grow (u u' : word) (l : list (option Z)) (w : world) (n : nat) :
  heap w (allocs w) = Some u' ->
  realloc sizeof_char (Block u l) (Z.of_nat (length l + n)) w
  = Ret (Some (Block u' (l ++ replicate n None)))
        (set_allocs (S (allocs w)) w).
Proof.
  intros H. unfold realloc. rewrite H. unfold sizeof_char.
  rewrite Z.div_1_r, Nat2Z.id. cbn [cells].
  rewrite take_app_add', take_replicate by reflexivity.
  now rewrite Nat.min_l by lia.
Qed.

Lemma read_loop_spec (input : list Byte.byte) :
  forall (fuel : nat) (acc : list Z) (k : nat) (u : word) (w : world),
    stdin w = input ->
    (length input < fuel)%nat ->
    (forall n, heap w n <> None) ->
    exists (u' : word) (k' n : nat),
      read_loop fuel (Block u ((Some <$> acc) ++ replicate (S k) None))
                (Z.of_nat (length acc + S k)) (Z.of_nat (length acc)) w
      = Ret (Block u' ((Some <$> (acc ++ (char_of_byte <$> (first_line input).1)))
                       ++ Some 0 :: replicate k' None))
            (set_allocs n (set_stdin (first_line input).2 w)).
Proof.
  induction input as [|c input IH]; intros fuel acc k u w Hin Hfuel Hheap;
    (destruct fuel as [|fuel]; [simpl in Hfuel; lia|]); cbn [read_loop].
  - unfold bind at 1, getchar. rewrite Hin.
    change (to_char EOF =? EOF) with true. cbn [orb first_line fst snd fmap list_fmap].
    exists u, k, (allocs w).
    rewrite <- (length_fmap Some acc), app_nil_r.
    cbn [replicate]. rewrite store_middle. f_equal.
    destruct w; cbn in *; now subst.
  - unfold bind at 1, getchar. rewrite Hin.
    fold (char_of_byte c). rewrite ends_line_char. cbn [first_line].
    destruct (ends_line c) eqn:Ec.
    + cbn [fst snd fmap list_fmap]. exists u, k, (allocs w).
      rewrite <- (length_fmap Some acc), app_nil_r.
      cbn [replicate]. rewrite store_middle. reflexivity.
    + destruct (first_line input) as [line rest] eqn:El. cbn [fst snd] in *.
      cbn [replicate].
      erewrite bind_ret
        by (apply store_middle_eq; now rewrite length_fmap).
      assert (Hcells : (Some <$> acc) ++ Some (char_of_byte c) :: replicate k None
                       = (Some <$> (acc ++ [char_of_byte c])) ++ replicate k None).
      { now rewrite fmap_app, <- app_assoc. }
      rewrite Hcells.
      replace (Z.of_nat (length acc) + 1)
        with (Z.of_nat (length (acc ++ [char_of_byte c])))
        by (rewrite length_app; cbn [length]; lia).
      replace (Z.of_nat (length acc + S k))
        with (Z.of_nat (length (acc ++ [char_of_byte c]) + k))
        by (rewrite length_app; cbn [length]; lia).
      set (acc' := acc ++ [char_of_byte c]).
      set (w1 := set_stdin input w).
      assert (Hin1 : stdin w1 = input) by reflexivity.
      assert (Hheap1 : forall n, heap w1 n <> None) by exact Hheap.
      destruct k as [|k].
      * (* the buffer is full: grow it by SH_CL_BUFSIZE *)
        rewrite Z.geb_leb. destruct (Z.leb_spec (Z.of_nat (length acc' + 0))
                                       (Z.of_nat (length acc'))); [|lia].
        destruct (heap w1 (allocs w1)) as [u1|] eqn:Eh;
          [|now destruct (Hheap1 (allocs w1))].
        cbn [replicate]. rewrite app_nil_r.
        erewrite bind_ret.
        2:{ unfold SH_CL_BUFSIZE.
            replace (Z.of_nat (length acc' + 0) + 512)
              with (Z.of_nat (length (Some <$> acc') + 512))
              by (rewrite length_fmap; lia).
            apply realloc_grow. exact Eh. }
        destruct (IH fuel acc' 511%nat u1 (set_allocs (S (allocs w1)) w1))
          as (u' & k' & n & Hr); [reflexivity|simpl in Hfuel; lia|exact Hheap|].
        try rewrite El in Hr. cbn [fst snd] in Hr.
        exists u', k', n. unfold SH_CL_BUFSIZE.
        replace (Z.of_nat (length acc' + 0) + 512)
          with (Z.of_nat (length acc' + 512)) by lia.
        rewrite Hr. unfold acc'. rewrite <- app_assoc. reflexivity.
      * rewrite Z.geb_leb.
        destruct (Z.leb_spec (Z.of_nat (length acc' + S k))
                             (Z.of_nat (length acc'))); [lia|].
        destruct (IH fuel acc' k u w1) as (u' & k' & n & Hr);
          [reflexivity|simpl in Hfuel; lia|exact Hheap|].
        try rewrite El in Hr. cbn [fst snd] in Hr.
        exists u', k', n. rewrite Hr. unfold acc'. rewrite <- app_assoc.
        reflexivity.
Qed.

(** C10.  When the allocator never fails, [read_command_line] returns a buffer
    that starts with the bytes of the input that come before the first line
    feed, byte 0xFF or end of input, followed by a NUL; the terminating byte is
    consumed and everything after it stays in the input.  A byte 0xFF becomes
    the character -1, which is [EOF]. *)
Theorem read_command_line_spec (w : world) :
  (forall n, heap w n <> None) ->
  char_of_byte Byte.xff = EOF
  /\ exists (u : word) (k n : nat),
       read_command_line w
       = Ret (Block u ((Some <$> (char_of_byte <$> (first_line (stdin w)).1))
                       ++ Some 0 :: replicate k None))
             (set_allocs n (set_stdin (first_line (stdin w)).2 w)).
Proof.
  intros Hheap. split; [reflexivity|].
  unfold read_command_line.
  destruct (heap w (allocs w)) as [u0|] eqn:Eh; [|now destruct (Hheap (allocs w))].
  erewrite bind_ret.
  2:{ unfold malloc. rewrite Eh. reflexivity. }
  cbv beta iota.
  destruct (read_loop_spec (stdin w) (S (length (stdin w))) [] 511%nat u0
              (set_allocs (S (allocs w)) w))
    as (u' & k' & n & H); [reflexivity|lia|exact Hheap|].
  exists u', k', n. exact H.
Qed.

(** ** The tokenizer *)

Lemma in_delim_space (c : ascii) : in_delim c " " = Ascii.eqb c " ".
Proof. cbn [in_delim]. apply orb_false_r. Qed.

Lemma fields_skip (s : string) :
  split_on_spaces (skip_delims s " ") = split_on_spaces s.
Proof.
  induction s as [|c s IH]; [reflexivity|].
  cbn [skip_delims]. rewrite in_delim_space.
  destruct (Ascii.eqb c " ") eqn:E; [|reflexivity].
  unfold split_on_spaces in *. cbn [fields]. rewrite E.
  cbn [List.filter String.eqb negb]. exact IH.
Qed.

Lemma skip_delims_length (s : string) :
  (String.length (skip_delims s " ") <= String.length s)%nat.
Proof.
  induction s as [|c s IH]; [reflexivity|].
  cbn [skip_delims]. destruct (in_delim c " "); cbn [String.length]; lia.
Qed.

Lemma skip_delims_head (s : string) (c : ascii) (s' : string) :
  skip_delims s " " = String c s' -> Ascii.eqb c " " = false.
Proof.
  induction s as [|a s IH]; [discriminate|].
  cbn [skip_delims]. rewrite in_delim_space.
  destruct (Ascii.eqb a " ") eqn:E; [exact IH|].
  intros [= <- <-]. exact E.
Qed.

Lemma cut_token_fields (s : string) :
  forall t rest,
    cut_token s " " = (t, rest) ->
    (String.length rest <= String.length s)%nat
    /\ exists fs,
         fields s = t :: fs
         /\ List.filter nonempty fs = List.filter nonempty (fields rest).
Proof.
  induction s as [|c s IH]; intros t rest H; cbn [cut_token] in H.
  - injection H as <- <-. split; [reflexivity|]. now exists [].
  - rewrite in_delim_space in H. cbn [fields].
    destruct (Ascii.eqb c " ").
    + injection H as <- <-. split; [cbn; lia|]. now exists (fields s).
    + destruct (cut_token s " ") as [t' rest'] eqn:E.
      injection H as <- <-.
      destruct (IH t' rest' eq_refl) as (Hlen & fs & Hf & Hfs).
      split; [cbn [String.length]; lia|].
      rewrite Hf. now exists fs.
Qed.

(** What [strtok] returns, in terms of the split the specification words. *)
Lemma strtok_split (s : string) :
  match strtok s " " with
  | None => split_on_spaces s = []
  | Some (t, rest) =>
      split_on_spaces s = t :: split_on_spaces rest
      /\ (String.length rest < String.length s)%nat
  end.
Proof.
  unfold strtok. rewrite <- (fields_skip s).
  pose proof (skip_delims_length s) as Hlen.
  destruct (skip_delims s " ") as [|c s'] eqn:E; [reflexivity|].
  pose proof (skip_delims_head s c s' E) as Hc.
  destruct (cut_token (String c s') " ") as [t rest] eqn:Ecut.
  destruct (cut_token_fields _ _ _ Ecut) as (Hl & fs & Hf & Hfs).
  cbn [cut_token] in Ecut. rewrite in_delim_space, Hc in Ecut.
  destruct (cut_token s' " ") as [t' rest'] eqn:E'.
  injection Ecut as <- <-.
  destruct (cut_token_fields _ _ _ E') as (Hl' & _).
  split; [|cbn [String.length] in *; lia].
  unfold split_on_spaces. rewrite Hf. cbn [List.filter String.eqb negb].
  f_equal. exact Hfs.
Qed.

Lemma parse_loop_spec (u : word) (w : world) :
  forall (fuel : nat) (s : string) (acc : list string),
    (String.length s <= fuel)%nat ->
    (length acc + length (split_on_spaces s) < 32)%nat ->
    parse_loop fuel
      (Block u (token_cells acc ++ replicate (32 - length acc) None))
      SH_ARG_BUFSIZE (Z.of_nat (length acc)) (strtok s " ") w
    = Ret (Block u (vector (acc ++ split_on_spaces s) ++
                    replicate (31 - length (acc ++ split_on_spaces s)) None))
          w.
Proof.
  induction fuel as [|fuel IH]; intros s acc Hfuel Hlen;
    pose proof (strtok_split s) as Hs;
    destruct (strtok s " ") as [[t rest]|].
  - destruct Hs as [_ Hs]. lia.
  - rewrite Hs in *. cbn [parse_loop length] in *. rewrite app_nil_r.
    replace (32 - length acc)%nat with (S (31 - length acc)) by lia.
    cbn [replicate]. rewrite store_middle_eq by now rewrite length_token_cells.
    rewrite vector_cells, <- app_assoc. reflexivity.
  - destruct Hs as [Hs Hrest]. rewrite Hs in *. cbn [parse_loop length] in *.
    replace (32 - length acc)%nat with (S (31 - length acc)) by lia.
    cbn [replicate].
    erewrite bind_ret
      by (apply store_middle_eq; now rewrite length_token_cells).
    unfold SH_ARG_BUFSIZE at 1.
    rewrite Z.geb_leb.
    destruct (Z.leb_spec 32 (Z.of_nat (length acc) + 1)); [lia|].
    specialize (IH rest (acc ++ [t])).
    rewrite length_app, token_cells_app, <- !app_assoc in IH.
    cbn [length token_cells fmap list_fmap app] in IH.
    fold (token_cells acc) in IH.
    replace (32 - (length acc + 1))%nat with (31 - length acc)%nat in IH by lia.
    replace (Z.of_nat (length acc) + 1) with (Z.of_nat (length acc + 1)) by lia.
    rewrite IH by lia. reflexivity.
  - rewrite Hs in *. cbn [parse_loop length] in *. rewrite app_nil_r.
    replace (32 - length acc)%nat with (S (31 - length acc)) by lia.
    cbn [replicate]. rewrite store_middle_eq by now rewrite length_token_cells.
    rewrite vector_cells, <- app_assoc. reflexivity.
Qed.

(** The tokenizer on a line of fewer than 32 tokens. *)
Lemma parse_command_line_short (u : word) (w : world) (line : string) :
  heap w (allocs w) = Some u ->
  (length (split_on_spaces line) < 32)%nat ->
  parse_command_line line w
  = Ret (Block u (vector (split_on_spaces line) ++
                  replicate (31 - length (split_on_spaces line)) None))
        (set_allocs (S (allocs w)) w).
Proof.
  intros Hh Hlen. unfold parse_command_line.
  erewrite bind_ret.
  2:{ unfold malloc. rewrite Hh. reflexivity. }
  cbv beta iota.
  exact (parse_loop_spec u _ (String.length line) line [] (le_n _) Hlen).
Qed.

Example tokenizer_examples :
  split_on_spaces "ls -la" = ["ls"; "-la"]
  /\ split_on_spaces "" = []
  /\ split_on_spaces "a  b" = ["a"; "b"]
  /\ parse_command_line "ls -la" quiet_world
     = Ret (Block Junk (vector ["ls"; "-la"] ++ replicate 29 None))
           (set_allocs 1 quiet_world)
  /\ parse_command_line "" quiet_world
     = Ret (Block Junk (vector [] ++ replicate 31 None))
           (set_allocs 1 quiet_world)
  /\ parse_command_line "a  b" quiet_world
     = Ret (Block Junk (vector ["a"; "b"] ++ replicate 29 None))
           (set_allocs 1 quiet_world).
Proof. repeat split; vm_compute; reflexivity. Qed.

(** C5 on the code.  The claim holds for lines of fewer than 32 tokens
    ([parse_command_line_short]).  On a line of 32 tokens the buffer of 32
    pointers is full when the last token is stored; the call
    [realloc(tokens, bufsize)] of line 158 then asks for 64 bytes, which is
    room for 8 pointers, and the store of the terminator at index 32 falls
    outside of the buffer. *)
Theorem parse_command_line_32_tokens (w : world) (u u' : word) :
  heap w (allocs w) = Some u ->
  heap w (S (allocs w)) = Some u' ->
  length (split_on_spaces line32) = 32%nat
  /\ parse_command_line line32 w = Fault (OutOfBounds 32 8).
Proof.
  intros H1 H2. split; [reflexivity|].
  destruct w as [i o c h l e hp al p cs]. cbn [heap allocs] in H1, H2.
  unfold parse_command_line, bind, malloc. cbn [heap allocs]. rewrite H1.
  vm_compute. rewrite H2. reflexivity.
Qed.

(** ** The theorems at concrete inputs *)

Lemma pipe_split_out_of_bounds_witness :
  let args := Block Junk (vector ["ls"; "|"; "wc"; "-l"]) in
  pipe_check args quiet_world = Ret 1 quiet_world
  /\ pipe_copy args 1 quiet_world
     = Ret (Some (Block Junk (vector ["ls"])),
            Some (Block Junk (token_cells ["wc"; "-l"])), 2)
           (set_allocs 2 quiet_world)
  /\ pipe_split args 1 quiet_world = Fault (OutOfBounds 3 2).
Proof.
  apply (pipe_split_out_of_bounds Junk Junk Junk quiet_world ["ls"]
           ["wc"; "-l"] []); [reflexivity|discriminate|reflexivity|reflexivity].
Defined.


Lemma pipe_launch_fork_failures_witness :
  pipe_launch (Some (Block Junk (vector ["ls"])))
              (Some (Block Junk (vector ["wc"; "-l"]))) 1 NULL
              one_process_world
  = Ret tt (set_calls [Pipe; Fork 100; Fork (-1); Close PIPE_R; Close PIPE_W;
                       Waitpid 100; Waitpid (-1)]
                      (set_pids [] quiet_world)).
Proof.
  apply (proj2 (pipe_launch_fork_failures one_process_world 100 (-1) [] 1 NULL
                  (Some (Block Junk (vector ["ls"])))
                  (Some (Block Junk (vector ["wc"; "-l"])))));
    [reflexivity|lia|lia].
Defined.

Lemma output_redirection_spec_witness :
  output_redirection (Block Junk (vector ["echo"; "hi"; ">"; "out.txt"]))
                     quiet_world
  = Ret (Ptr "out.txt",
         Block Junk (vector ["echo"; "hi"] ++ [Some (Ptr "out.txt"); Some NULL]))
        quiet_world
  /\ output_redirection (Block Junk (vector [">>"; "log"; "make"; "all"]))
                        quiet_world
     = Ret (Ptr "log",
            Block Junk (vector ["make"; "all"] ++ [Some (Ptr "all"); Some NULL]))
           quiet_world
  /\ output_redirection (Block NULL (vector [">>"; "log"; "make"; "all"]))
                        quiet_world
     = Ret (Ptr "log", Block NULL (vector [">>"; "log"; "make"; "all"]))
           quiet_world.
Proof.
  split; [|split].
  - apply (proj2 (proj2 (output_redirection_spec Junk [] quiet_world
                           ["echo"; "hi"] eq_refl) ">" eq_refl) "out.txt" []).
  - apply (proj2 (proj2 (output_redirection_spec Junk [] quiet_world
                           [] eq_refl) ">>" eq_refl) "log" ["make"; "all"]).
  - apply (proj2 (proj2 (output_redirection_spec NULL [] quiet_world
                           [] eq_refl) ">>" eq_refl) "log" ["make"; "all"]).
Defined.

Lemma parse_command_line_32_tokens_witness :
  length (split_on_spaces line32) = 32%nat
  /\ parse_command_line line32 quiet_world = Fault (OutOfBounds 32 8).
Proof.
  apply (parse_command_line_32_tokens quiet_world Junk Junk); reflexivity.
Defined.


Lemma exit_ends_session_witness :
  main 1 exit_world
  = Ret 0 (set_allocs 2 (set_stdout (banner ++ ["$ "]) quiet_world)).
Proof.
  apply (proj2 (exit_ends_session Junk ["now"] (replicate 29 None)
                  (set_allocs 2 (set_stdout (banner ++ ["$ "]) quiet_world)))
           0%nat exit_world
           (set_allocs 1 (set_stdout (banner ++ ["$ "]) quiet_world))
           (Block Junk ((Some <$> [101; 120; 105; 116; 32; 110; 111; 119])
                        ++ Some 0 :: replicate 503 None))
           "exit now");
    vm_compute; reflexivity.
Defined.

Lemma execute_cd_spec_witness :
  execute_cd (Block Junk (vector ["cd"])) quiet_world
  = Ret tt (set_cwd "/home/user" quiet_world)
  /\ execute_cd (Block Junk (vector ["cd"; "/nonexistent"])) quiet_world
     = Ret tt (set_stdout
                 ["cd: /nonexistent: No such file or directory" ++ nl]%string
                 quiet_world).
Proof.
  split.
  - apply (proj1 (execute_cd_spec Junk [] quiet_world "cd") []
             "/home/user" "/home/user"); [left|..]; reflexivity.
  - apply (proj2 (execute_cd_spec Junk [] quiet_world "cd") "/nonexistent" []);
      [discriminate|reflexivity].
Defined.

Lemma read_command_line_spec_witness :
  char_of_byte Byte.xff = EOF
  /\ exists (u : word) (k n : nat),
       read_command_line ff_world
       = Ret (Block u ((Some <$> [97; 98]) ++ Some 0 :: replicate k None))
             (set_allocs n (set_stdin [Byte.x63; Byte.x0a] quiet_world)).
Proof.
  apply (read_command_line_spec ff_world). intros n. discriminate.
Defined.

(** * Further properties of the code *)

(** ** Counting and the pipe check *)

(** X1.  [count_command_line_args] returns the number of elements in front of
    the first NULL, whatever the buffer holds after it. *)
Theorem count_command_line_args_length (u : word) (v : list string)
    (rest : list (option word)) (w : world) :
  count_command_line_args (Block u (vector v ++ rest)) w
  = Ret (Z.of_nat (length v)) w.
Proof.
  unfold count_command_line_args. apply count_loop_vector.
  cbn [cells]. rewrite length_app, length_vector. lia.
Qed.

(** X2.  [pipe_check] follows a first-match policy: it returns the index of
    the first "|" whatever comes after it, further pipes included, and -1
    when the vector holds none. *)
Theorem pipe_check_first_match (u : word) (w : world) (pre post : list string)
    (rest : list (option word)) :
  forallb (fun s => negb (is_pipe s)) pre = true ->
  pipe_check (Block u (vector (pre ++ "|" :: post) ++ rest)) w
  = Ret (Z.of_nat (length pre)) w
  /\ pipe_check (Block u (vector pre ++ rest)) w = Ret (-1) w.
Proof.
  intros H. split; [now apply pipe_check_first|now apply pipe_check_none].
Qed.

Lemma pipe_check_first_match_witness :
  pipe_check (Block Junk (vector ["a"; "|"; "b"; "|"; "c"])) quiet_world
  = Ret 1 quiet_world
  /\ pipe_check (Block Junk (vector ["a"])) quiet_world = Ret (-1) quiet_world.
Proof.
  apply (pipe_check_first_match Junk quiet_world ["a"] ["b"; "|"; "c"] []).
  reflexivity.
Defined.

(** ** The launchers, failure and child sides *)

Lemma mapM_pointee (v : list string) : mapM pointee (Ptr <$> v) = Some v.
Proof.
  induction v as [|s v IH]; [reflexivity|].
  cbn. rewrite IH. reflexivity.
Qed.

Lemma argv_strings_vector (u : word) (v : list string)
    (rest : list (option word)) :
  argv_strings (Some (Block u (vector v ++ rest))) = Some v.
Proof.
  unfold argv_strings. cbn [cells]. rewrite argv_vector. apply mapM_pointee.
Qed.

Lemma load_ptr_head (u : word) (f : string) (v : list string)
    (rest : list (option word)) (w : world) :
  load_ptr (Block u (vector (f :: v) ++ rest)) 0 w = Ret (Ptr f) w.
Proof. reflexivity. Qed.

Lemma execvp_vector (u : word) (f : string) (v : list string)
    (rest : list (option word)) (w : world) :
  execvp (Ptr f) (Some (Block u (vector (f :: v) ++ rest))) w
  = if executable w f then Exec f (f :: v) w else Ret (-1) w.
Proof. unfold execvp. now rewrite argv_strings_vector. Qed.

Lemma redirect_output_calls (output_file : word) (w : world) :
  redirect_output output_file w
  = Ret tt (set_calls (calls w ++ redirect_calls output_file) w).
Proof.
  unfold redirect_output, redirect_calls.
  destruct (is_null output_file); cbn [negb].
  - unfold ret, set_calls. rewrite app_nil_r. now destruct w.
  - unfold bind, syscall_.
    cbv [set_calls calls stdin stdout cwd home lookup_dir executable heap
         allocs pids].
    now rewrite <- !app_assoc.
Qed.

(** The child side of [execute_external]. *)
Lemma execute_external_child (u : word) (f : string) (v : list string)
    (rest : list (option word)) (blk : Z) (output_file : word) (w : world)
    (others : list Z) :
  pids w = 0 :: others ->
  execute_external (Block u (vector (f :: v) ++ rest)) blk output_file w
  = let w' := set_calls (calls w ++ Fork 0 :: redirect_calls output_file)
                        (set_pids others w) in
    if executable w f then Exec f (f :: v) w'
    else Exit 1 (set_stdout (stdout w ++ ["unable to execute command" ++ nl]%string)
                            w').
Proof.
  intros Hp. unfold execute_external, bind at 1, fork. rewrite Hp.
  unfold bind at 1. cbn [Z.ltb Z.compare]. unfold ret at 1.
  unfold bind at 1. cbn [Z.eqb].
  unfold bind at 1. rewrite redirect_output_calls.
  unfold bind at 1. rewrite load_ptr_head.
  unfold bind at 1. rewrite execvp_vector.
  cbn [executable set_calls set_pids].
  destruct (executable w f).
  - cbv [set_calls set_pids calls pids stdin stdout cwd home lookup_dir
         executable heap allocs].
    now rewrite <- !app_assoc.
  - cbv [bind printf exit set_stdout set_calls set_pids calls pids stdin
         stdout cwd home lookup_dir executable heap allocs].
    now rewrite <- !app_assoc.
Qed.

(** X3.  In the child ([fork] returned 0) [execute_external] never returns to
    the loop: it redirects standard output exactly when an output file was
    given, then the process becomes the program named by element 0, with the
    whole vector as its arguments; if that fails it prints
    "unable to execute command" and exits with status 1.  The [block]
    argument plays no part. *)
Theorem execute_external_in_child (u : word) (f : string) (v : list string)
    (rest : list (option word)) (blk : Z) (output_file : word) (w : world)
    (others : list Z) :
  pids w = 0 :: others ->
  execute_external (Block u (vector (f :: v) ++ rest)) blk output_file w
  = let w' := set_calls (calls w ++ Fork 0 :: redirect_calls output_file)
                        (set_pids others w) in
    if executable w f then Exec f (f :: v) w'
    else Exit 1 (set_stdout (stdout w ++ ["unable to execute command" ++ nl]%string)
                            w').
Proof. apply execute_external_child. Qed.

Lemma execute_external_in_child_witness :
  execute_external (Block Junk (vector ["echo"; "hi"])) 1 (Ptr "out.txt")
                   child_world
  = Exec "echo" ["echo"; "hi"]
         (set_calls [Fork 0; Open (Ptr "out.txt"); Close STDOUT; Dup OUT;
                     Close OUT]
                    (set_pids [] quiet_world)).
Proof.
  apply (execute_external_in_child Junk "echo" ["hi"] [] 1 (Ptr "out.txt")
           child_world []).
  reflexivity.
Defined.

Lemma execute_external_no_fork (args : block word) (blk : Z)
    (output_file : word) (w : world) (pid : Z) (others : list Z) :
  pids w = pid :: others -> pid < 0 ->
  execute_external args blk output_file w
  = Exit 1 (set_stdout (stdout w ++ ["unable to fork" ++ nl]%string)
              (set_calls (calls w ++ [Fork pid]) (set_pids others w))).
Proof.
  intros Hp Hneg. unfold execute_external, bind at 1, fork. rewrite Hp.
  unfold bind at 1.
  replace (pid <? 0) with true by (symmetry; now apply Z.ltb_lt).
  cbv [bind printf exit set_stdout set_calls set_pids calls pids stdin
       stdout cwd home lookup_dir executable heap allocs].
  reflexivity.
Qed.

(** ** Dispatch *)

Lemma builtin_loop_names (f : string) (w : world) :
  builtin_loop ["cd"; "exit"] (Ptr f) w = Ret (is_builtin_name f) w.
Proof.
  unfold is_builtin_name. cbn [builtin_loop].
  destruct (strcmp_tokens f "cd" w) as (c & Hc & Hz).
  erewrite bind_ret by exact Hc. rewrite Hz.
  destruct (String.eqb f "cd"); [reflexivity|].
  destruct (strcmp_tokens f "exit" w) as (c' & Hc' & Hz').
  erewrite bind_ret by exact Hc'. rewrite Hz'.
  destruct (String.eqb f "exit"); reflexivity.
Qed.

Lemma execute_external_parent (args : block word) (blk : Z)
    (output_file : word) (w : world) (pid : Z) (others : list Z) :
  pids w = pid :: others -> 0 < pid ->
  execute_external args blk output_file w
  = Ret tt (set_calls
              (calls w ++ Fork pid :: (if blk =? 1 then [Waitpid pid] else []))
              (set_pids others w)).
Proof.
  intros Hp Hpos.
  unfold execute_external, bind, syscall_, fork, ret. rewrite Hp.
  rewrite (ltb_0_false pid), (eqb_0_false pid) by lia.
  destruct (blk =? 1);
    cbv [set_calls set_pids pids calls stdin stdout cwd home lookup_dir
         executable heap allocs];
    rewrite <- ?app_assoc; reflexivity.
Qed.

Lemma classify_returns (args args1 args2 : block word) (blk idx : Z)
    (out : word) (w : world) :
  block_check args w = Ret (blk, args1) w ->
  output_redirection args1 w = Ret (out, args2) w ->
  pipe_check args2 w = Ret idx w ->
  classify args w = Ret (Decision blk out idx args2) w.
Proof.
  intros H1 H2 H3. unfold classify.
  erewrite bind_ret by exact H1. cbv beta iota.
  erewrite bind_ret by exact H2. cbv beta iota.
  erewrite bind_ret by exact H3. reflexivity.
Qed.

Lemma classify_exits (args args1 : block word) (blk s : Z) (w w' : world) :
  block_check args w = Ret (blk, args1) w ->
  output_redirection args1 w = Exit s w' ->
  classify args w = Exit s w'.
Proof.
  intros H1 H2. unfold classify.
  erewrite bind_ret by exact H1. cbv beta iota.
  erewrite bind_exit by exact H2. reflexivity.
Qed.

Lemma not_reserved_parts (s : string) :
  negb (reserved s) = true ->
  String.eqb s "&" = false /\ is_op s = false /\ is_pipe s = false.
Proof.
  unfold reserved, is_pipe. intros H. apply negb_true_iff in H.
  destruct (String.eqb s "&"), (is_op s), (String.eqb s "|");
    try discriminate; auto.
Qed.

Lemma not_reserved_all (v : list string) :
  forallb (fun s => negb (reserved s)) v = true ->
  forallb (fun s => negb (is_op s)) v = true
  /\ forallb (fun s => negb (is_pipe s)) v = true.
Proof.
  induction v as [|s v IH]; [auto|]. cbn [forallb].
  intros [Hs Hv]%andb_prop. destruct (IH Hv) as [-> ->].
  destruct (not_reserved_parts s Hs) as (_ & -> & ->). auto.
Qed.

Lemma forallb_last {A} (f : A -> bool) (l : list A) (x : A) :
  forallb f (l ++ [x]) = true -> f x = true.
Proof.
  rewrite forallb_app. cbn [forallb]. rewrite andb_true_r.
  now intros [_ H]%andb_prop.
Qed.

Lemma is_op_not_amp (op : string) : is_op op = true -> String.eqb op "&" = false.
Proof.
  unfold is_op. intros [H|H]%orb_prop; apply String.eqb_eq in H; now subst.
Qed.

Lemma is_op_not_builtin (op : string) :
  is_op op = true -> is_builtin_name op = false.
Proof.
  unfold is_op. intros [H|H]%orb_prop; apply String.eqb_eq in H; now subst.
Qed.

(** Classification of a command without control tokens, "&" at the end
    apart. *)
Lemma classify_plain (u : word) (w : world) (body : list string) (bg : bool)
    (rest : list (option word)) :
  forallb (fun s => negb (reserved s)) body = true ->
  (bg = false -> body <> []) ->
  classify (Block u (vector (body ++ (if bg then ["&"] else [])) ++ rest)) w
  = Ret (Decision (if bg then 0 else 1) NULL (-1)
           (Block u (vector body ++
                     (if bg then Some NULL :: rest else rest)))) w.
Proof.
  intros Hbody Hne. destruct (not_reserved_all body Hbody) as [Hop Hpipe].
  destruct bg.
  - eapply classify_returns.
    + exact (block_check_last u body "&" rest w).
    + apply (output_redirection_cases u _ w body Hop).
    + now apply pipe_check_none.
  - rewrite app_nil_r.
    destruct body as [|s body _] using rev_ind; [now destruct Hne|].
    pose proof (forallb_last _ _ _ Hbody) as Hs.
    destruct (not_reserved_parts s Hs) as (Hamp & _ & _).
    pose proof (block_check_last u body s rest w) as Hb. rewrite Hamp in Hb.
    eapply classify_returns.
    + exact Hb.
    + apply (output_redirection_cases u _ w (body ++ [s]) Hop).
    + now apply pipe_check_none.
Qed.

Lemma execute_command_line_external (args : block word) (f : string)
    (d : decision) (w : world) :
  load_ptr args 0 w = Ret (Ptr f) w ->
  is_builtin_name f = false ->
  classify args w = Ret d w ->
  d_pipe_index d = -1 ->
  execute_command_line args w
  = (execute_external (d_args d) (d_block d) (d_output_file d) ;;; ret 0) w.
Proof.
  intros Hload Hname Hclass Hidx. unfold execute_command_line.
  erewrite bind_ret by exact Hload. cbn [is_null].
  erewrite bind_ret by apply builtin_loop_names. rewrite Hname.
  erewrite bind_ret by exact Hclass. rewrite Hidx. reflexivity.
Qed.

(** X6.  A command without control tokens, in the parent.  The shell forks one
    child and returns 0 to its loop; it waits for the child unless the line
    ended with "&", in which case that "&" is not part of the vector the child
    gets. *)
Theorem execute_command_line_plain (u : word) (w : world) (body : list string)
    (bg : bool) (f : string) (tl : list string) (rest : list (option word))
    (pid : Z) (others : list Z) :
  body ++ (if bg then ["&"] else []) = f :: tl ->
  is_builtin_name f = false ->
  forallb (fun s => negb (reserved s)) body = true ->
  pids w = pid :: others -> 0 < pid ->
  execute_command_line
    (Block u (vector (body ++ (if bg then ["&"] else [])) ++ rest)) w
  = Ret 0 (set_calls
             (calls w ++ Fork pid :: (if bg then [] else [Waitpid pid]))
             (set_pids others w)).
Proof.
  intros Hv Hname Hbody Hp Hpos.
  assert (Hne : bg = false -> body <> []).
  { intros -> ->. discriminate Hv. }
  assert (Hload : load_ptr
            (Block u (vector (body ++ (if bg then ["&"] else [])) ++ rest)) 0 w
            = Ret (Ptr f) w) by (rewrite Hv; reflexivity).
  pose proof (classify_plain u w body bg rest Hbody Hne) as Hc.
  rewrite (execute_command_line_external _ f _ w Hload Hname Hc eq_refl).
  erewrite bind_ret.
  2:{ apply execute_external_parent; [exact Hp|exact Hpos]. }
  cbn [d_block]. destruct bg; reflexivity.
Qed.

Lemma execute_command_line_plain_witness :
  execute_command_line (Block Junk (vector ["sleep"; "5"; "&"])) quiet_world
  = Ret 0 (set_calls [Fork 100] (set_pids [101] quiet_world))
  /\ execute_command_line (Block Junk (vector ["sleep"; "5"])) quiet_world
     = Ret 0 (set_calls [Fork 100; Waitpid 100] (set_pids [101] quiet_world)).
Proof.
  split.
  - apply (execute_command_line_plain Junk quiet_world ["sleep"; "5"] true
             "sleep" ["5"; "&"] [] 100 [101]); reflexivity.
  - apply (execute_command_line_plain Junk quiet_world ["sleep"; "5"] false
             "sleep" ["5"] [] 100 [101]); reflexivity.
Defined.

Lemma last_not_amp (l : list string) (x : string) :
  forallb (fun s => negb (reserved s)) (x :: l) = true ->
  exists q s, x :: l = q ++ [s] /\ String.eqb s "&" = false.
Proof.
  intros H. destruct (x :: l) as [|s q _] eqn:E using rev_ind.
  - discriminate E.
  - exists q, s. split; [reflexivity|].
    now destruct (not_reserved_parts s (forallb_last _ _ _ H)).
Qed.

(** Classification of a command with one redirection and no other control
    token, "&" at the end apart. *)
Lemma classify_redirection (u : word) (w : world) (op file : string)
    (pre post : list string) (bg : bool) (rest : list (option word)) :
  forallb (fun s => negb (reserved s)) (pre ++ post) = true ->
  is_op op = true ->
  negb (reserved file) = true ->
  (pre = [] -> u <> NULL) ->
  classify
    (Block u (vector (pre ++ op :: file :: post ++ (if bg then ["&"] else []))
              ++ rest)) w
  = Ret (Decision (if bg then 0 else 1) (Ptr file) (-1)
           (Block u (vector (pre ++ post) ++
                     Some (Ptr (default file (last post)))
                     :: Some NULL :: (if bg then Some NULL :: rest else rest))))
        w.
Proof.
  intros Hbody Hop Hfile Hu.
  destruct (not_reserved_all _ Hbody) as [Hops Hpipes].
  pose proof Hops as Hops'. apply forallb_app_inv in Hops' as [Hpre _].
  destruct bg.
  - replace (pre ++ op :: file :: post ++ ["&"])
      with ((pre ++ op :: file :: post) ++ ["&"])
      by (rewrite <- app_assoc; reflexivity).
    eapply classify_returns.
    + exact (block_check_last u (pre ++ op :: file :: post) "&" rest w).
    + apply (proj2 (proj2 (output_redirection_cases u _ w pre Hpre) op Hop)
               file post Hu).
    + now apply pipe_check_none.
  - rewrite app_nil_r.
    assert (Htail : forallb (fun s => negb (reserved s)) (file :: post) = true).
    { cbn [forallb]. rewrite Hfile.
      now apply forallb_app_inv in Hbody as [_ ->]. }
    destruct (last_not_amp post file Htail) as (q & s & Hq & Hs).
    assert (Hv : pre ++ op :: file :: post = (pre ++ op :: q) ++ [s]).
    { rewrite <- app_assoc. cbn [app]. now rewrite Hq. }
    pose proof (block_check_last u (pre ++ op :: q) s rest w) as Hb.
    rewrite Hs, <- Hv in Hb.
    eapply classify_returns.
    + exact Hb.
    + apply (proj2 (proj2 (output_redirection_cases u rest w pre Hpre) op Hop)
               file post Hu).
    + now apply pipe_check_none.
Qed.

(** X17.  The decision for a command with one output redirection.  The
    background check runs first and the redirection check second, on the
    vector the first one left: a final "&" is recorded and removed, then the
    operator and the file name are removed and the file name recorded, and
    the pipe check finds nothing.  The other elements stay in their order. *)
Theorem classify_redirection_decision (u : word) (w : world) (op file : string)
    (pre post : list string) (bg : bool) (rest : list (option word)) :
  forallb (fun s => negb (reserved s)) (pre ++ post) = true ->
  is_op op = true ->
  negb (reserved file) = true ->
  (pre = [] -> u <> NULL) ->
  exists d,
    classify
      (Block u (vector (pre ++ op :: file :: post ++ (if bg then ["&"] else []))
                ++ rest)) w
    = Ret d w
    /\ d_block d = (if bg then 0 else 1)
    /\ d_output_file d = Ptr file
    /\ d_pipe_index d = -1
    /\ argv (cells (d_args d)) = Some (Ptr <$> (pre ++ post)).
Proof.
  intros Hbody Hop Hfile Hu. eexists. split.
  - now apply classify_redirection.
  - cbn [d_block d_output_file d_pipe_index d_args cells].
    repeat split. apply argv_vector.
Qed.

Lemma classify_redirection_decision_witness :
  exists d,
    classify (Block Junk (vector ["make"; ">"; "log"; "all"; "&"] ++ []))
             quiet_world
    = Ret d quiet_world
    /\ d_block d = 0
    /\ d_output_file d = Ptr "log"
    /\ d_pipe_index d = -1
    /\ argv (cells (d_args d)) = Some [Ptr "make"; Ptr "all"].
Proof.
  apply (classify_redirection_decision Junk quiet_world ">" "log" ["make"]
           ["all"] true []); [reflexivity|reflexivity|reflexivity|discriminate].
Defined.

(** X7.  A command with an output redirection, seen from the child.  The
    operator and the file name are not passed on: the child opens the file,
    makes it its standard output and becomes the program with the other
    elements as arguments, in their order. *)
Theorem execute_command_line_redirected_child (u : word) (w : world)
    (f op file : string) (pre post : list string) (rest : list (option word))
    (others : list Z) :
  is_builtin_name f = false ->
  forallb (fun s => negb (reserved s)) (f :: pre ++ post) = true ->
  is_op op = true ->
  negb (reserved file) = true ->
  pids w = 0 :: others ->
  executable w f = true ->
  execute_command_line
    (Block u (vector (f :: pre ++ op :: file :: post) ++ rest)) w
  = Exec f (f :: pre ++ post)
      (set_calls (calls w ++ [Fork 0; Open (Ptr file); Close STDOUT; Dup OUT;
                              Close OUT])
                 (set_pids others w)).
Proof.
  intros Hname Hbody Hop Hfile Hp Hexec.
  pose proof (classify_redirection u w op file (f :: pre) post false rest
                Hbody Hop Hfile ltac:(discriminate)) as Hc.
  cbn [app] in Hc. rewrite app_nil_r in Hc.
  rewrite (execute_command_line_external _ f _ w
             (load_ptr_head u f (pre ++ op :: file :: post) rest w)
             Hname Hc eq_refl).
  cbn [d_args d_block d_output_file]. unfold bind at 1.
  rewrite (execute_external_child u f (pre ++ post) _ 1 (Ptr file) w others Hp).
  cbv zeta. rewrite Hexec. reflexivity.
Qed.

Lemma execute_command_line_redirected_child_witness :
  execute_command_line (Block Junk (vector ["echo"; "hi"; ">"; "out.txt"]))
                       child_world
  = Exec "echo" ["echo"; "hi"]
      (set_calls [Fork 0; Open (Ptr "out.txt"); Close STDOUT; Dup OUT;
                  Close OUT]
                 (set_pids [] quiet_world)).
Proof.
  apply (execute_command_line_redirected_child Junk child_world "echo" ">"
           "out.txt" ["hi"] [] [] []); reflexivity.
Defined.

(** X8.  A redirection operator with no file name after it ends the shell
    before anything is forked: "must specify output file" is printed and the
    exit status is 1.  Because the background check runs first, this is also
    what happens when the operator is followed by a final "&" only. *)
Theorem execute_command_line_missing_file (u : word) (w : world)
    (body : list string) (op : string) (bg : bool)
    (rest : list (option word)) :
  forallb (fun s => negb (reserved s)) body = true ->
  (forall f, head body = Some f -> is_builtin_name f = false) ->
  is_op op = true ->
  execute_command_line
    (Block u (vector (body ++ op :: (if bg then ["&"] else [])) ++ rest)) w
  = Exit 1 (set_stdout (stdout w ++ ["must specify output file" ++ nl]%string) w).
Proof.
  intros Hbody Hhead Hop.
  destruct (not_reserved_all _ Hbody) as [Hops _].
  set (v := body ++ op :: (if bg then ["&"] else [])).
  assert (Hf : exists f tl, v = f :: tl /\ is_builtin_name f = false).
  { unfold v. destruct body as [|f body].
    - exists op. eexists. split; [reflexivity|now apply is_op_not_builtin].
    - exists f. eexists. split; [reflexivity|]. now apply Hhead. }
  destruct Hf as (f & tl & Hv & Hname).
  unfold execute_command_line.
  erewrite bind_ret by (rewrite Hv; reflexivity). cbn [is_null].
  erewrite bind_ret by apply builtin_loop_names. rewrite Hname.
  erewrite bind_exit; [reflexivity|]. unfold v.
  destruct bg.
  - eapply classify_exits.
    + replace (body ++ [op; "&"]) with ((body ++ [op]) ++ ["&"])
        by now rewrite <- app_assoc.
      exact (block_check_last u (body ++ [op]) "&" rest w).
    + apply (proj1 (proj2 (output_redirection_cases u _ w body Hops) op Hop)).
  - eapply classify_exits.
    + pose proof (block_check_last u body op rest w) as Hb.
      rewrite (is_op_not_amp op Hop) in Hb. exact Hb.
    + apply (proj1 (proj2 (output_redirection_cases u _ w body Hops) op Hop)).
Qed.

Lemma execute_command_line_missing_file_witness :
  execute_command_line (Block Junk (vector ["ls"; ">"; "&"])) quiet_world
  = Exit 1 (set_stdout ["must specify output file" ++ nl]%string quiet_world)
  /\ execute_command_line (Block Junk (vector ["ls"; ">>"])) quiet_world
     = Exit 1 (set_stdout ["must specify output file" ++ nl]%string quiet_world).
Proof.
  split.
  - apply (execute_command_line_missing_file Junk quiet_world ["ls"] ">" true
             []); [reflexivity| |reflexivity].
    intros f [= <-]. reflexivity.
  - apply (execute_command_line_missing_file Junk quiet_world ["ls"] ">>" false
             []); [reflexivity| |reflexivity].
    intros f [= <-]. reflexivity.
Defined.

(** ** The [cd] builtin *)

Lemma execute_cd_quiet (u : word) (a0 : string) (v : list string)
    (rest : list (option word)) (w : world) :
  exists w',
    execute_cd (Block u (vector (a0 :: v) ++ rest)) w = Ret tt w'
    /\ calls w' = calls w /\ pids w' = pids w
    /\ stdin w' = stdin w /\ allocs w' = allocs w.
Proof.
  unfold execute_cd. destruct v as [|p v].
  - erewrite bind_ret by reflexivity. cbn [is_null].
    erewrite bind_ret by reflexivity.
    unfold bind, getenv, chdir. cbn.
    destruct (home w) as [h|]; [|now exists w].
    destruct (lookup_dir w (cwd w) h) as [d|]; [|now exists w].
    now exists (set_cwd d w).
  - erewrite bind_ret by reflexivity. cbn [is_null].
    destruct (strcmp_tokens p "~" w) as (c & Hc & Hz).
    erewrite bind_ret.
    2:{ erewrite bind_ret by exact Hc. reflexivity. }
    rewrite Hz. destruct (String.eqb p "~").
    + unfold bind, getenv, chdir. cbn.
      destruct (home w) as [h|]; [|now exists w].
      destruct (lookup_dir w (cwd w) h) as [d|]; [|now exists w].
      now exists (set_cwd d w).
    + unfold bind, chdir.
      destruct (lookup_dir w (cwd w) p) as [d|].
      * now exists (set_cwd d w).
      * cbn. eexists. split; [reflexivity|]. auto.
Qed.

(** X9.  A command named "cd" is never run as an external program: whatever
    its arguments and whether or not the directory change succeeds,
    [execute_command_line] returns 0 to the loop without reading input,
    allocating or creating a process. *)
Theorem cd_is_internal (u : word) (v : list string)
    (rest : list (option word)) (w : world) :
  exists w',
    execute_command_line (Block u (vector ("cd" :: v) ++ rest)) w = Ret 0 w'
    /\ calls w' = calls w /\ pids w' = pids w
    /\ stdin w' = stdin w /\ allocs w' = allocs w.
Proof.
  destruct (execute_cd_quiet u "cd" v rest w) as (w' & Hcd & H).
  exists w'. split; [|exact H].
  unfold execute_command_line.
  erewrite bind_ret by reflexivity. cbn [is_null].
  erewrite bind_ret by apply builtin_loop_names.
  change (is_builtin_name "cd") with true. cbv iota.
  unfold execute_builtin.
  erewrite bind_ret by reflexivity.
  destruct (strcmp_tokens "cd" "exit" w) as (c & Hc & Hz).
  erewrite bind_ret by exact Hc. rewrite Hz.
  change (String.eqb "cd" "exit") with false. cbv iota.
  erewrite bind_ret by exact Hcd. reflexivity.
Qed.

(** X10.  [cd] with a path other than "~" that [chdir] can enter moves to the
    directory the path leads to and prints nothing; arguments after the path
    are ignored. *)
Theorem execute_cd_enters (u : word) (rest : list (option word)) (w : world)
    (a0 path d : string) (v : list string) :
  path <> "~" ->
  lookup_dir w (cwd w) path = Some d ->
  execute_cd (Block u (vector (a0 :: path :: v) ++ rest)) w
  = Ret tt (set_cwd d w).
Proof.
  intros Hne Hd. unfold execute_cd.
  erewrite bind_ret by reflexivity. cbn [is_null].
  destruct (strcmp_tokens path "~" w) as (c & Hc & Hz).
  erewrite bind_ret.
  2:{ erewrite bind_ret by exact Hc. reflexivity. }
  rewrite Hz. destruct (String.eqb_spec path "~") as [->|_]; [contradiction|].
  unfold bind, chdir. rewrite Hd. reflexivity.
Qed.

Lemma execute_cd_enters_witness :
  execute_cd (Block Junk (vector ["cd"; "/home/user"; "extra"])) quiet_world
  = Ret tt (set_cwd "/home/user" quiet_world).
Proof.
  apply (execute_cd_enters Junk [] quiet_world "cd" "/home/user" "/home/user"
           ["extra"]); [discriminate|reflexivity].
Defined.

(** ** Allocation failure *)

(** X11.  When the allocator refuses the first buffer, [read_command_line]
    and [parse_command_line] print "unable to allocate memory" and end the
    shell with status 1; no input is consumed.  For the shell as a whole: if
    memory is refused at the first prompt, [main] does not return, the process
    exits with status 1 after the banner, one prompt and the message. *)
Theorem allocation_failure_is_fatal (w : world) (line : string) (fuel : nat) :
  heap w (allocs w) = None ->
  let w' := set_stdout (stdout w ++ ["unable to allocate memory" ++ nl]%string)
                       (set_allocs (S (allocs w)) w) in
  read_command_line w = Exit 1 w'
  /\ parse_command_line line w = Exit 1 w'
  /\ main (S fuel) w
     = Exit 1 (set_stdout
                 (stdout w ++ banner
                  ++ ["$ "; "unable to allocate memory" ++ nl]%string)
                 (set_allocs (S (allocs w)) w)).
Proof.
  intros H w'. split; [|split].
  - unfold read_command_line, bind, malloc. now rewrite H.
  - unfold parse_command_line, bind, malloc. now rewrite H.
  - unfold main. erewrite bind_ret by apply print_all_ok.
    erewrite bind_exit; [reflexivity|].
    cbn [shell_loop Z.eqb].
    erewrite bind_ret by reflexivity.
    erewrite bind_exit; [reflexivity|].
    unfold read_command_line, bind, malloc.
    cbn [heap allocs set_stdout]. rewrite H.
    cbv [out_of_memory bind printf exit set_stdout set_allocs stdin stdout cwd
         home lookup_dir executable heap allocs pids calls].
    now rewrite <- !app_assoc.
Qed.

Lemma allocation_failure_is_fatal_witness :
  read_command_line no_memory_world
  = Exit 1 (set_stdout ["unable to allocate memory" ++ nl]%string
              (set_allocs 1 no_memory_world))
  /\ parse_command_line "ls -la" no_memory_world
     = Exit 1 (set_stdout ["unable to allocate memory" ++ nl]%string
                 (set_allocs 1 no_memory_world))
  /\ main 1 no_memory_world
     = Exit 1 (set_stdout
                 (banner ++ ["$ "; "unable to allocate memory" ++ nl]%string)
                 (set_allocs 1 no_memory_world)).
Proof.
  apply (allocation_failure_is_fatal no_memory_world "ls -la" 0). reflexivity.
Defined.

(** ** From the input to the tokenizer *)








(** ** The loop at the end of the input *)

Lemma read_command_line_eof (u : word) (w : world) :
  stdin w = [] ->
  heap w (allocs w) = Some u ->
  read_command_line w
  = Ret (Block u (Some 0 :: replicate 511 None)) (set_allocs (S (allocs w)) w).
Proof.
  intros Hin Hh. unfold read_command_line, bind at 1, malloc.
  rewrite Hh, Hin. cbn [length read_loop].
  unfold bind, getchar. cbn [stdin set_allocs]. rewrite Hin.
  reflexivity.
Qed.

Lemma bind_assoc {A B C} (m : M A) (k : A -> M B) (k' : B -> M C) (w : world) :
  bind (bind m k) k' w = bind m (fun a => bind (k a) k') w.
Proof. unfold bind. now destruct (m w). Qed.

Lemma bind_ext {A B} (m : M A) (k k' : A -> M B) (w : world) :
  (forall a w', k a w' = k' a w') -> bind m k w = bind m k' w.
Proof. intros H. unfold bind. destruct (m w); auto. Qed.

(** [shell_loop] is [shell_turn] again and again. *)
Lemma shell_loop_turn (fuel : nat) (w : world) :
  shell_loop (S fuel) 0 w = bind shell_turn (shell_loop fuel) w.
Proof.
  cbn [shell_loop Z.eqb]. unfold shell_turn, bind.
  destruct (printf "$ " w) as [[] w1|s w1|f v w1|f]; try reflexivity.
  destruct (read_command_line w1) as [b w2|s w2|f v w2|f]; try reflexivity.
  destruct (string_at b w2) as [l w3|s w3|f v w3|f]; try reflexivity.
  destruct (parse_command_line l w3) as [a w4|s w4|f v w4|f]; reflexivity.
Qed.

Lemma shell_loop_turns (turns fuel : nat) :
  forall (status : Z) (w : world),
    shell_loop (turns + fuel) status w
    = bind (shell_turns turns status) (shell_loop fuel) w.
Proof.
  induction turns as [|turns IH]; intros status w; [reflexivity|].
  cbn [Nat.add shell_turns].
  destruct (status =? 0) eqn:E.
  - apply Z.eqb_eq in E. subst status.
    rewrite shell_loop_turn, bind_assoc.
    apply bind_ext. intros st w1. apply IH.
  - cbn [shell_loop]. rewrite E. unfold bind, ret.
    destruct fuel; cbn [shell_loop]; now rewrite E.
Qed.

(** One turn when no input is left: a prompt and two allocations, nothing
    else, and the status is 0. *)
Lemma shell_turn_eof (w : world) :
  stdin w = [] ->
  (forall n, heap w n <> None) ->
  shell_turn w
  = Ret 0 (set_allocs (S (S (allocs w))) (set_stdout (stdout w ++ ["$ "]) w)).
Proof.
  intros Hin Hheap.
  set (w0 := set_stdout (stdout w ++ ["$ "]) w).
  destruct (heap w (allocs w)) as [u|] eqn:E1; [|now destruct (Hheap (allocs w))].
  destruct (heap w (S (allocs w))) as [u'|] eqn:E2;
    [|now destruct (Hheap (S (allocs w)))].
  unfold shell_turn.
  erewrite bind_ret by reflexivity.
  erewrite bind_ret
    by (apply (read_command_line_eof u w0); [exact Hin|exact E1]).
  erewrite bind_ret by reflexivity.
  erewrite bind_ret.
  2:{ apply (parse_command_line_short u'); [exact E2|cbn; lia]. }
  reflexivity.
Qed.

Lemma shell_turns_eof (turns : nat) :
  forall w : world,
    stdin w = [] ->
    (forall n, heap w n <> None) ->
    shell_turns turns 0 w
    = Ret 0 (set_allocs (2 * turns + allocs w)
               (set_stdout (stdout w ++ replicate turns "$ ") w)).
Proof.
  induction turns as [|turns IH]; intros w Hin Hheap.
  - cbn [shell_turns replicate Nat.mul Nat.add]. rewrite app_nil_r.
    now destruct w.
  - cbn [shell_turns Z.eqb].
    erewrite bind_ret by (apply shell_turn_eof; assumption).
    rewrite IH by assumption.
    cbn [replicate]. destruct w as [i o c h l e hp a p cs].
    cbv [set_allocs set_stdout stdin stdout cwd home lookup_dir executable
         heap allocs pids calls].
    replace (2 * S turns + a)%nat with (2 * turns + S (S a))%nat by lia.
    now rewrite <- app_assoc.
Qed.

(** X13.  End of input does not end the shell.  [shell_loop] runs
    [shell_turn] as long as the status is 0, whatever the input.  At end of
    input a turn prints a prompt, gets an empty line, which tokenizes to an
    empty vector, for which [execute_command_line] returns 0: after any
    number of turns the output has grown by that many prompts, no system call
    was made and the status is still 0, so the loop never returns, whatever
    number of turns it is given, and neither does [main]. *)
Theorem shell_loop_never_ends_at_eof (w : world) :
  stdin w = [] ->
  (forall n, heap w n <> None) ->
  (forall (turns fuel : nat) (w0 : world),
      shell_loop (turns + fuel) 0 w0
      = bind (shell_turns turns 0) (shell_loop fuel) w0)
  /\ (forall turns : nat,
        shell_turns turns 0 w
        = Ret 0 (set_allocs (2 * turns + allocs w)
                   (set_stdout (stdout w ++ replicate turns "$ ") w)))
  /\ (forall fuel : nat, shell_loop fuel 0 w = Fault OutOfFuel)
  /\ (forall fuel : nat, main fuel w = Fault OutOfFuel).
Proof.
  intros Hin Hheap.
  assert (Hloop : forall fuel, shell_loop fuel 0 w = Fault OutOfFuel).
  { intros fuel.
    replace fuel with (fuel + 0)%nat by lia.
    rewrite shell_loop_turns.
    erewrite bind_ret by (apply shell_turns_eof; assumption).
    reflexivity. }
  split; [|split; [|split]].
  - intros turns fuel w0. apply shell_loop_turns.
  - intros turns. now apply shell_turns_eof.
  - exact Hloop.
  - intros fuel. unfold main. erewrite bind_ret by apply print_all_ok.
    erewrite bind_fault; [reflexivity|].
    replace fuel with (fuel + 0)%nat by lia.
    rewrite shell_loop_turns.
    erewrite bind_ret.
    2:{ apply shell_turns_eof; [exact Hin|exact Hheap]. }
    reflexivity.
Qed.

Lemma shell_loop_never_ends_at_eof_witness :
  shell_turns 3 0 eof_world
  = Ret 0 (set_allocs 6 (set_stdout ["$ "; "$ "; "$ "] eof_world))
  /\ shell_loop 3 0 eof_world = Fault OutOfFuel
  /\ main 3 eof_world = Fault OutOfFuel
  /\ shell_loop 1 0 exit_world
     = bind (shell_turns 1 0) (shell_loop 0) exit_world.
Proof.
  assert (Hheap : forall n, heap eof_world n <> None) by (intros n; discriminate).
  pose proof (shell_loop_never_ends_at_eof eof_world eq_refl Hheap)
    as (Hturns & Hn & Hloop & Hmain).
  split; [|split; [|split]].
  - exact (Hn 3%nat).
  - exact (Hloop 3%nat).
  - exact (Hmain 3%nat).
  - exact (Hturns 1%nat 0%nat exit_world).
Defined.

(** ** More on the tokenizer *)

Lemma fields_not_nil (s : string) : fields s <> [].
Proof.
  induction s as [|c s IH]; [discriminate|]. cbn [fields].
  destruct (Ascii.eqb c " "); [discriminate|].
  destruct (fields s); discriminate.
Qed.

Lemma fields_no_space (s : string) :
  forallb (fun f => negb (has_space f)) (fields s) = true.
Proof.
  induction s as [|c s IH]; [reflexivity|]. cbn [fields].
  destruct (Ascii.eqb c " ") eqn:E; [exact IH|].
  destruct (fields s) as [|f fs]; cbn [forallb has_space] in *;
    rewrite E; [reflexivity|exact IH].
Qed.

Lemma split_tokens (s : string) :
  forallb is_token (split_on_spaces s) = true.
Proof.
  unfold split_on_spaces. pose proof (fields_no_space s) as H.
  induction (fields s) as [|f fs IH]; [reflexivity|].
  cbn [forallb] in H. apply andb_prop in H as [Hf Hfs].
  cbn [List.filter]. destruct (nonempty f) eqn:E; [|now apply IH].
  cbn [forallb]. unfold is_token at 1. rewrite E, Hf. now apply IH.
Qed.

Lemma append_nil_r (s : string) : (s ++ "")%string = s.
Proof. induction s as [|c s IH]; [reflexivity|]. cbn. now rewrite IH. Qed.

Lemma concat_cons (f : string) (l : list string) :
  String.concat "" (f :: l) = (f ++ String.concat "" l)%string.
Proof.
  destruct l; cbn [String.concat]; [now rewrite append_nil_r|reflexivity].
Qed.

Lemma concat_fields (s : string) :
  String.concat "" (fields s) = without_spaces s.
Proof.
  induction s as [|c s IH]; [reflexivity|]. cbn [fields without_spaces].
  pose proof (fields_not_nil s) as Hne. rewrite <- IH.
  destruct (Ascii.eqb c " ").
  - now rewrite concat_cons.
  - destruct (fields s) as [|f fs]; [contradiction|].
    now rewrite !concat_cons.
Qed.

Lemma concat_filter_nonempty (l : list string) :
  String.concat "" (List.filter nonempty l) = String.concat "" l.
Proof.
  induction l as [|f l IH]; [reflexivity|]. cbn [List.filter].
  rewrite (concat_cons f l), <- IH.
  destruct f as [|c f]; [reflexivity|].
  cbn [nonempty String.eqb negb]. now rewrite concat_cons.
Qed.

(** X14.  The vector that [parse_command_line] returns for a line of fewer
    than 32 tokens holds tokens only: no element is empty, none contains a
    space, and written one after the other they are the line with its spaces
    taken out, so that no other character is lost or moved. *)
Theorem parse_command_line_tokens (u : word) (w : world) (line : string) :
  heap w (allocs w) = Some u ->
  (length (split_on_spaces line) < 32)%nat ->
  exists v : list string,
    parse_command_line line w
    = Ret (Block u (vector v ++ replicate (31 - length v) None))
          (set_allocs (S (allocs w)) w)
    /\ forallb is_token v = true
    /\ String.concat "" v = without_spaces line.
Proof.
  intros Hh Hlen. exists (split_on_spaces line). split; [|split].
  - now apply parse_command_line_short.
  - apply split_tokens.
  - unfold split_on_spaces. rewrite concat_filter_nonempty. apply concat_fields.
Qed.

Lemma parse_command_line_tokens_witness :
  exists v : list string,
    parse_command_line "  ls   -la " quiet_world
    = Ret (Block Junk (vector v ++ replicate (31 - length v) None))
          (set_allocs 1 quiet_world)
    /\ forallb is_token v = true
    /\ String.concat "" v = "ls-la".
Proof.
  apply (parse_command_line_tokens Junk quiet_world "  ls   -la ");
    [reflexivity|vm_compute; lia].
Defined.

Lemma fields_token (t : string) :
  has_space t = false -> fields t = [t].
Proof.
  induction t as [|c t IH]; [reflexivity|]. cbn [has_space fields].
  intros [Hc Ht]%orb_false_elim. rewrite Hc, (IH Ht). reflexivity.
Qed.

Lemma fields_token_space (t s : string) :
  has_space t = false ->
  fields (t ++ String " " s) = t :: fields s.
Proof.
  induction t as [|c t IH]; [reflexivity|]. cbn [has_space].
  intros [Hc Ht]%orb_false_elim.
  change (String c t ++ String " " s)%string
    with (String c (t ++ String " " s)).
  cbn [fields]. rewrite Hc, (IH Ht). reflexivity.
Qed.

Lemma split_concat (v : list string) :
  forallb is_token v = true ->
  split_on_spaces (String.concat " " v) = v.
Proof.
  unfold split_on_spaces.
  induction v as [|t v IH]; [reflexivity|]. cbn [forallb].
  intros [Ht Hv]%andb_prop. unfold is_token in Ht.
  apply andb_prop in Ht as [Hne Hsp]. apply negb_true_iff in Hsp.
  destruct v as [|t' v].
  - cbn [String.concat]. rewrite (fields_token t Hsp).
    cbn [List.filter]. now rewrite Hne.
  - change (String.concat " " (t :: t' :: v))
      with (t ++ String " " (String.concat " " (t' :: v)))%string.
    rewrite (fields_token_space t _ Hsp). cbn [List.filter]. rewrite Hne.
    f_equal. now apply IH.
Qed.

(** X15.  Round trip.  Writing fewer than 32 tokens one after the other with
    one space in between and tokenizing the line gives the tokens back. *)
Theorem parse_command_line_concat (u : word) (w : world) (v : list string) :
  heap w (allocs w) = Some u ->
  forallb is_token v = true ->
  (length v < 32)%nat ->
  parse_command_line (String.concat " " v) w
  = Ret (Block u (vector v ++ replicate (31 - length v) None))
        (set_allocs (S (allocs w)) w).
Proof.
  intros Hh Hv Hlen.
  pose proof (parse_command_line_short u w (String.concat " " v) Hh) as H.
  rewrite (split_concat v Hv) in H. now apply H.
Qed.

Lemma parse_command_line_concat_witness :
  parse_command_line "grep -v x" quiet_world
  = Ret (Block Junk (vector ["grep"; "-v"; "x"] ++ replicate 28 None))
        (set_allocs 1 quiet_world).
Proof.
  apply (parse_command_line_concat Junk quiet_world ["grep"; "-v"; "x"]);
    [reflexivity|reflexivity|simpl; lia].
Defined.

Lemma realloc_tokens_64 (u u' : word) (l : list (option word)) (w : world) :
  heap w (allocs w) = Some u' ->
  (8 <= length l)%nat ->
  exists l',
    realloc sizeof_ptr (Block u l) (SH_ARG_BUFSIZE + SH_ARG_BUFSIZE) w
    = Ret (Some (Block u' l')) (set_allocs (S (allocs w)) w)
    /\ length l' = 8%nat.
Proof.
  intros Hh Hl. unfold realloc. rewrite Hh.
  change (Z.to_nat ((SH_ARG_BUFSIZE + SH_ARG_BUFSIZE) / sizeof_ptr)) with 8%nat.
  eexists. split; [reflexivity|].
  cbn [cells]. rewrite length_take, length_app. lia.
Qed.

Lemma parse_loop_full (u' : word) (l' : list (option word)) (w : world)
    (fuel : nat) (s : string) :
  length l' = 8%nat ->
  (String.length s <= fuel)%nat ->
  parse_loop fuel (Block u' l') (SH_ARG_BUFSIZE + SH_ARG_BUFSIZE) 32
             (strtok s " ") w
  = Fault (OutOfBounds 32 8).
Proof.
  intros Hl Hfuel. pose proof (strtok_split s) as Hs.
  destruct (strtok s " ") as [[t rest]|].
  - destruct Hs as [_ Hs]. destruct fuel as [|fuel]; [lia|].
    cbn [parse_loop]. erewrite bind_fault; [reflexivity|].
    rewrite store_out_of_bounds; cbn [cells]; rewrite Hl; [reflexivity|lia].
  - destruct fuel; cbn [parse_loop];
      (rewrite store_out_of_bounds; cbn [cells]; rewrite Hl; [reflexivity|lia]).
Qed.

Lemma parse_loop_overflow (u u' : word) (w : world) :
  heap w (allocs w) = Some u' ->
  forall (fuel : nat) (s : string) (acc : list string),
    (String.length s <= fuel)%nat ->
    (length acc < 32)%nat ->
    (32 <= length acc + length (split_on_spaces s))%nat ->
    parse_loop fuel
      (Block u (token_cells acc ++ replicate (32 - length acc) None))
      SH_ARG_BUFSIZE (Z.of_nat (length acc)) (strtok s " ") w
    = Fault (OutOfBounds 32 8).
Proof.
  intros Hh. induction fuel as [|fuel IH]; intros s acc Hfuel Hacc Hlen;
    pose proof (strtok_split s) as Hs;
    destruct (strtok s " ") as [[t rest]|].
  - destruct Hs as [_ Hs]. lia.
  - rewrite Hs in Hlen. cbn [length] in Hlen. lia.
  - destruct Hs as [Hs Hrest]. rewrite Hs in Hlen. cbn [length] in Hlen.
    cbn [parse_loop].
    replace (32 - length acc)%nat with (S (31 - length acc)) by lia.
    cbn [replicate].
    erewrite bind_ret
      by (apply store_middle_eq; now rewrite length_token_cells).
    unfold SH_ARG_BUFSIZE at 1. rewrite Z.geb_leb.
    destruct (Z.leb_spec 32 (Z.of_nat (length acc) + 1)) as [Hfull|Hroom].
    + assert (Hacc31 : length acc = 31%nat) by lia.
      rewrite Hacc31. cbn [Nat.sub replicate].
      destruct (realloc_tokens_64 u u'
                  (token_cells acc ++ [Some (Ptr t)]) w Hh)
        as (l' & Hre & Hl').
      { rewrite length_app, length_token_cells. lia. }
      erewrite bind_ret by exact Hre. cbv beta iota.
      replace (Z.of_nat 31 + 1) with 32 by lia.
      apply parse_loop_full; [exact Hl'|lia].
    + specialize (IH rest (acc ++ [t])).
      rewrite length_app, token_cells_app, <- !app_assoc in IH.
      cbn [length token_cells fmap list_fmap app] in IH.
      fold (token_cells acc) in IH.
      replace (32 - (length acc + 1))%nat with (31 - length acc)%nat in IH
        by lia.
      replace (Z.of_nat (length acc) + 1) with (Z.of_nat (length acc + 1))
        by lia.
      apply IH; lia.
  - rewrite Hs in Hlen. cbn [length] in Hlen. lia.
Qed.

(** X16.  The limit of the tokenizer.  Every line of 32 tokens or more runs
    into the buffer that the [realloc] of line 158 has shrunk to 64 bytes:
    the store at index 32, of the 33rd token or of the terminator, is outside
    of its 8 cells.  So 31 is the largest number of tokens the tokenizer
    handles. *)
Theorem parse_command_line_overflow (u u' : word) (w : world) (line : string) :
  heap w (allocs w) = Some u ->
  heap w (S (allocs w)) = Some u' ->
  (32 <= length (split_on_spaces line))%nat ->
  parse_command_line line w = Fault (OutOfBounds 32 8).
Proof.
  intros H1 H2 Hlen. unfold parse_command_line.
  erewrite bind_ret.
  2:{ unfold malloc. rewrite H1. reflexivity. }
  cbv beta iota.
  exact (parse_loop_overflow u u' (set_allocs (S (allocs w)) w) H2
           (String.length line) line [] (le_n _) ltac:(cbn; lia) Hlen).
Qed.

Lemma parse_command_line_overflow_witness :
  parse_command_line (line32 ++ " b c") quiet_world
  = Fault (OutOfBounds 32 8).
Proof.
  apply (parse_command_line_overflow Junk Junk quiet_world (line32 ++ " b c"));
    [reflexivity|reflexivity|vm_compute; lia].
Defined.

(** ** Growth of the line buffer *)

Lemma read_loop_growth_fails (k : nat) :
  forall (input : list Byte.byte) (fuel : nat) (acc : list Z) (u : word)
         (w : world),
    stdin w = input ->
    (length input < fuel)%nat ->
    (k < length (first_line input).1)%nat ->
    heap w (allocs w) = None ->
    read_loop fuel (Block u ((Some <$> acc) ++ replicate (S k) None))
              (Z.of_nat (length acc + S k)) (Z.of_nat (length acc)) w
    = Exit 1 (set_stdout (stdout w ++ ["unable to allocate memory" ++ nl]%string)
                (set_allocs (S (allocs w))
                   (set_stdin (drop (S k) input) w))).
Proof.
  induction k as [|k IH]; intros input fuel acc u w Hin Hfuel Hk Hh;
    (destruct input as [|c input]; [cbn in Hk; lia|]);
    (destruct fuel as [|fuel]; [cbn in Hfuel; lia|]);
    cbn [first_line] in Hk;
    (destruct (ends_line c) eqn:Ec; [cbn in Hk; lia|]);
    destruct (first_line input) as [line rest] eqn:El; cbn [fst length] in Hk;
    cbn [read_loop]; unfold bind at 1, getchar; rewrite Hin;
    fold (char_of_byte c); rewrite ends_line_char, Ec; cbn [replicate];
    (erewrite bind_ret by (apply store_middle_eq; now rewrite length_fmap)).
  - rewrite Z.geb_leb.
    destruct (Z.leb_spec (Z.of_nat (length acc + 1)) (Z.of_nat (length acc) + 1));
      [|lia].
    unfold bind, realloc, out_of_memory. cbn [heap allocs set_stdin].
    rewrite Hh. reflexivity.
  - rewrite Z.geb_leb.
    destruct (Z.leb_spec (Z.of_nat (length acc + S (S k)))
                         (Z.of_nat (length acc) + 1)); [lia|].
    assert (Hcells : (Some <$> acc) ++ Some (char_of_byte c)
                     :: None :: replicate k None
                     = (Some <$> (acc ++ [char_of_byte c]))
                       ++ replicate (S k) None).
    { now rewrite fmap_app, <- app_assoc. }
    rewrite Hcells.
    replace (Z.of_nat (length acc) + 1)
      with (Z.of_nat (length (acc ++ [char_of_byte c])))
      by (rewrite length_app; cbn [length]; lia).
    replace (Z.of_nat (length acc + S (S k)))
      with (Z.of_nat (length (acc ++ [char_of_byte c]) + S k))
      by (rewrite length_app; cbn [length]; lia).
    rewrite (IH input fuel (acc ++ [char_of_byte c]) u (set_stdin input w));
      [reflexivity|reflexivity|cbn in Hfuel; lia| |exact Hh].
    rewrite El. cbn [fst]. lia.
Qed.

(** X18.  A line of 512 bytes or more needs a larger buffer.  When the
    allocator refuses it, the shell prints "unable to allocate memory" and
    exits with status 1, having consumed the 512 bytes that filled the first
    buffer. *)
Theorem read_command_line_growth_failure (u : word) (w : world) :
  heap w (allocs w) = Some u ->
  heap w (S (allocs w)) = None ->
  (512 <= length (first_line (stdin w)).1)%nat ->
  read_command_line w
  = Exit 1 (set_stdout (stdout w ++ ["unable to allocate memory" ++ nl]%string)
              (set_allocs (S (S (allocs w)))
                 (set_stdin (drop 512 (stdin w)) w))).
Proof.
  intros H1 H2 Hlen. unfold read_command_line.
  erewrite bind_ret.
  2:{ unfold malloc. rewrite H1. reflexivity. }
  cbv beta iota.
  exact (read_loop_growth_fails 511 (stdin w) (S (length (stdin w))) [] u
           (set_allocs (S (allocs w)) w) eq_refl (Nat.lt_succ_diag_r _)
           ltac:(lia) H2).
Qed.

Lemma read_command_line_growth_failure_witness :
  read_command_line long_line_world
  = Exit 1 (set_stdout ["unable to allocate memory" ++ nl]%string
              (set_allocs 2 (set_stdin [Byte.x0a] long_line_world))).
Proof.
  apply (read_command_line_growth_failure Junk long_line_world);
    [reflexivity|reflexivity|vm_compute; lia].
Defined.

(** ** More on dispatch *)

(** X4.  A failure of [fork] ends the shell.  For a command without control
    tokens, "&" at the end apart, [execute_command_line] does not return when
    [fork] fails: "unable to fork" is printed and the exit status is 1,
    whether or not the command was to run in the background. *)
Theorem execute_command_line_fork_failure (u : word) (w : world)
    (body : list string) (bg : bool) (f : string) (tl : list string)
    (rest : list (option word)) (pid : Z) (others : list Z) :
  body ++ (if bg then ["&"] else []) = f :: tl ->
  is_builtin_name f = false ->
  forallb (fun s => negb (reserved s)) body = true ->
  pids w = pid :: others -> pid < 0 ->
  execute_command_line
    (Block u (vector (body ++ (if bg then ["&"] else [])) ++ rest)) w
  = Exit 1 (set_stdout (stdout w ++ ["unable to fork" ++ nl]%string)
              (set_calls (calls w ++ [Fork pid]) (set_pids others w))).
Proof.
  intros Hv Hname Hbody Hp Hneg.
  assert (Hne : bg = false -> body <> []).
  { intros -> ->. discriminate Hv. }
  assert (Hload : load_ptr
            (Block u (vector (body ++ (if bg then ["&"] else [])) ++ rest)) 0 w
            = Ret (Ptr f) w) by (rewrite Hv; reflexivity).
  pose proof (classify_plain u w body bg rest Hbody Hne) as Hc.
  rewrite (execute_command_line_external _ f _ w Hload Hname Hc eq_refl).
  erewrite bind_exit; [reflexivity|].
  now apply execute_external_no_fork.
Qed.

Lemma execute_command_line_fork_failure_witness :
  execute_command_line (Block Junk (vector ["ls"; "-l"; "&"])) no_process_world
  = Exit 1 (set_stdout ["unable to fork" ++ nl]%string
              (set_calls [Fork (-1)] (set_pids [] quiet_world))).
Proof.
  apply (execute_command_line_fork_failure Junk no_process_world ["ls"; "-l"]
           true "ls" ["-l"; "&"] [] (-1) []); reflexivity.
Defined.

(** X19.  The pipe index is an index into the vector as the redirection check
    left it.  With a redirection in front of the first "|", the recorded index
    is two less than the position the "|" had on the line; the elements on
    both sides of it keep their order. *)
Theorem classify_pipe_index (u : word) (w : world) (op file : string)
    (pre mid post : list string) (rest : list (option word)) :
  forallb (fun s => negb (reserved s)) (pre ++ mid ++ post) = true ->
  is_op op = true ->
  negb (reserved file) = true ->
  (pre = [] -> u <> NULL) ->
  exists d,
    classify
      (Block u (vector (pre ++ op :: file :: mid ++ "|" :: post) ++ rest)) w
    = Ret d w
    /\ d_block d = 1
    /\ d_output_file d = Ptr file
    /\ d_pipe_index d = Z.of_nat (length pre + length mid)
    /\ argv (cells (d_args d)) = Some (Ptr <$> (pre ++ mid ++ "|" :: post)).
Proof.
  intros Hbody Hop Hfile Hu.
  destruct (not_reserved_all _ Hbody) as [Hops Hpipes].
  pose proof Hops as Hops'. apply forallb_app_inv in Hops' as [Hpre _].
  rewrite app_assoc in Hpipes. apply forallb_app_inv in Hpipes as [Hpipes _].
  assert (Hlast : exists q s,
             pre ++ op :: file :: mid ++ "|" :: post = q ++ [s]
             /\ String.eqb s "&" = false).
  { destruct post as [|x post _] using rev_ind.
    - exists (pre ++ op :: file :: mid), "|". split; [|reflexivity].
      now rewrite <- !app_assoc.
    - exists (pre ++ op :: file :: mid ++ "|" :: post), x. split.
      + rewrite <- !app_assoc. cbn [app]. now rewrite <- app_assoc.
      + rewrite !app_assoc in Hbody.
        now destruct (not_reserved_parts x (forallb_last _ _ _ Hbody)). }
  destruct Hlast as (q & s & Hq & Hs).
  pose proof (block_check_last u q s rest w) as Hb. rewrite Hs, <- Hq in Hb.
  eexists. split.
  - eapply classify_returns.
    + exact Hb.
    + apply (proj2 (proj2 (output_redirection_cases u rest w pre Hpre) op Hop)
               file (mid ++ "|" :: post) Hu).
    + rewrite (app_assoc pre mid). apply pipe_check_first. exact Hpipes.
  - cbn [d_block d_output_file d_pipe_index d_args cells].
    rewrite length_app. repeat split.
    apply argv_vector.
Qed.

Lemma classify_pipe_index_witness :
  exists d,
    classify (Block Junk (vector ["ls"; ">"; "out"; "-l"; "|"; "wc"] ++ []))
             quiet_world
    = Ret d quiet_world
    /\ d_block d = 1
    /\ d_output_file d = Ptr "out"
    /\ d_pipe_index d = 2
    /\ argv (cells (d_args d)) = Some [Ptr "ls"; Ptr "-l"; Ptr "|"; Ptr "wc"].
Proof.
  apply (classify_pipe_index Junk quiet_world ">" "out" ["ls"] ["-l"] ["wc"]
           []); [reflexivity|reflexivity|reflexivity|discriminate].
Defined.
